(** * Enforcement layer: anomaly detection, post-execution audit, orchestration

    A shallow embedding of
    - [src/layers/in-process/anomaly-detection-engine.ts] (class
      [AnomalyDetectionEngine]),
    - the post-execution layer (class [PostExecutionLayer]), and
    - [src/orchestrator/guardrail-orchestrator.ts] (class
      [GuardrailOrchestrator]),
    followed by the properties of the specification that concern them.

    Conventions of the embedding.
    - A JavaScript [number] is an exact rational ([Q]); equality of numbers
      is [Qeq] ([==]).  Rounding, infinities and NaN are not represented.
    - A JavaScript string is a [string]: a sequence of code units, here the
      8-bit ones (the Latin-1 range), on which [toLowerCase] and the regular
      expression class [\s] are written out.
    - An optional property ([x?: T]) is an [option].
    - Objects that are shared by reference (an [ActionContext] held by the
      orchestrator's map, by the stages and by event payloads) live in a
      store indexed by references; the map of active actions holds
      references, not copies.
    - The clock ([Date.now()], [new Date()]) is a component of the state.
    - The event bus is represented by the sequence of published events
      and, for the violation event, by the handlers registered on it, to
      which a publication is delivered before [emitViolation] returns.  A
      handler that is an [async] function runs as a whole at the delivery.
    - Console output is not part of the state. *)

From Stdlib Require Import ZArith QArith Qabs Qminmax Lia Lqa.
From Stdlib Require Import String Ascii List Bool Permutation.
From Stdlib Require Import DecimalString DecimalPos DecimalN.
From stdpp Require Import base option list gmap strings.
Import ListNotations.

(** ** JavaScript values and helpers *)

Module Js.

(** The values a [Record<string, any>] carries; an absent key reads as
    [undefined], which is [None] at a lookup. *)
#[warnings="-register-all"]
Inductive value : Type :=
| VNull
| VBool (b : bool)
| VNum (q : Q)
| VStr (s : string)
| VArr (items : list value).

(** [ToBoolean]: what [if (v)], [v || d] and [v && e] test. *)
Definition truthy (v : option value) : bool :=
  match v with
  | None => false
  | Some VNull => false
  | Some (VBool b) => b
  | Some (VNum q) => negb (Qeq_bool q 0)
  | Some (VStr s) => negb (String.eqb s "")
  | Some (VArr _) => true
  end.

(** [Math.max(0, Math.min(1, v))]. *)
Definition clamp01 (v : Q) : Q := Qmax 0 (Qmin 1 v).

(** The comparisons [a >= b], [a < b] and [a > b] on numbers. *)
Definition geb (a b : Q) : bool := Qle_bool b a.
Definition ltb (a b : Q) : bool := negb (Qle_bool b a).
Definition gtb (a b : Q) : bool := negb (Qle_bool a b).

(** [xs.length] as a number. *)
Definition len {A : Type} (xs : list A) : Q := inject_Z (Z.of_nat (length xs)).

(** [xs.reduce((sum, x) => sum + x, 0)]. *)
Definition sum (xs : list Q) : Q := fold_left (fun acc x => acc + x)%Q xs 0%Q.

(** [n || 0] on an optional number: [undefined] and [0] both give [0]. *)
Definition orZero (n : option Q) : Q :=
  match n with
  | Some q => if Qeq_bool q 0 then 0%Q else q
  | None => 0%Q
  end.

(** [xs.includes(x)] on an array of strings. *)
Definition arrayIncludes (xs : list string) (x : string) : bool :=
  existsb (String.eqb x) xs.

(** [String.prototype.toLowerCase] on one code unit below 256: the letters
    A-Z and the Latin-1 capitals U+00C0-U+00DE, U+00D7 excepted. *)
Definition lowerUnit (c : ascii) : ascii :=
  let n := nat_of_ascii c in
  if ((65 <=? n) && (n <=? 90)
      || (192 <=? n) && (n <=? 222) && negb (n =? 215))%nat
  then ascii_of_nat (n + 32) else c.

Fixpoint toLowerCase (s : string) : string :=
  match s with
  | EmptyString => EmptyString
  | String c s' => String (lowerUnit c) (toLowerCase s')
  end.

(** The class [\s] below 256: TAB, LF, VT, FF, CR, SPACE, NBSP. *)
Definition isSpace (c : ascii) : bool :=
  let n := nat_of_ascii c in
  ((9 <=? n) && (n <=? 13) || (n =? 32) || (n =? 160))%nat.

(** [s.split(/\s+/)]: the pieces between maximal runs of white space.
    [inRun] says that the previous unit was white space, [cur] is the
    piece being read.  A leading or trailing run yields an empty piece,
    and the empty string yields one empty piece, as in JavaScript. *)
Fixpoint splitFrom (inRun : bool) (cur : string) (s : string) : list string :=
  match s with
  | EmptyString => [cur]
  | String c s' =>
      if isSpace c
      then if inRun then splitFrom true cur s'
           else cur :: splitFrom true EmptyString s'
      else splitFrom false (cur ++ String c EmptyString)%string s'
  end.

Definition splitSpaces (s : string) : list string := splitFrom false EmptyString s.

(** [s.includes(word)]: [word] occurs in [s] at some position. *)
Fixpoint includes (s word : string) : bool :=
  String.prefix word s
  || match s with
     | EmptyString => false
     | String _ s' => includes s' word
     end.

(** [new Set(xs)]: the distinct elements in order of first insertion. *)
Definition setAdd (acc : list string) (x : string) : list string :=
  if arrayIncludes acc x then acc else acc ++ [x].

Definition newSet (xs : list string) : list string := fold_left setAdd xs [].

(** [set.has(x)] and [set.size]. *)
Definition setHas (s : list string) (x : string) : bool := arrayIncludes s x.
Definition setSize (s : list string) : nat := length s.

(** The decimal numeral that a template literal prints for a
    non-negative integer. *)
Definition decimal (n : N) : string := NilZero.string_of_uint (N.to_uint n).

End Js.

(** ** Data model ([core/models]) *)

(** Modelled from the spec: the declarations of [core/models] are not among
    the sources; the records below carry the fields named in section 3 of
    the specification and read by the code. *)
Record BehaviorVector : Type := {
  intentDeviationRisk : Q;
  scopeDriftRisk : Q;
  apiNoveltyRisk : Q;
  sensitiveDataExposureRisk : Q;
  cooperativeInstabilityRisk : Q;
  dataVolumeRisk : Q
}.

Record AnomalyToleranceThresholds : Type := {
  warn : Q;
  slow : Q;
  requireApproval : Q;
  halt : Q
}.

Inductive AnomalyMitigationAction : Type :=
| NONE | WARN | SLOW | REQUIRE_APPROVAL | HALT.

Inductive Operation : Type := OpRead | OpWrite.
Inductive Sensitivity : Type := SensLow | SensMedium | SensHigh.

Record DataAccess : Type := {
  operation : Operation;
  recordCount : option Q;
  sensitivity : Sensitivity
}.

Record CooperativeSignal : Type := {
  stabilityScore : Q;
  conflictScore : option Q
}.

Record ExecutionStep : Type := {
  observedIntent : option string;
  authorityScopeUsed : option (list string);
  apiCalls : option (list string);
  dataAccess : option (list DataAccess);
  cooperativeSignals : option (list CooperativeSignal)
}.

Record InProcessMonitorPolicy : Type := {
  declaredAuthorityScope : list string;
  allowedApis : list string;
  maxRecordsPerStep : Q;
  minCooperativeStability : Q;
  maxCooperativeConflict : Q
}.

(** ** The anomaly detection engine *)

Module AnomalyDetectionEngine.
Import Js.
Local Open Scope Q_scope.

(** The engine's state: the thresholds fixed by the constructor. *)
Record engine : Type := {
  thresholds : AnomalyToleranceThresholds;
  actionDelayMs : Q
}.

Record PartialThresholds : Type := {
  p_warn : option Q;
  p_slow : option Q;
  p_requireApproval : option Q;
  p_halt : option Q
}.

(** [constructor(thresholds?, actionDelayMs = 250)]: every absent cut point
    takes its default. *)
Definition create (given : option PartialThresholds) (delay : option Q) : engine :=
  {| thresholds :=
       {| warn := default (1 # 4) (given ≫= p_warn);
          slow := default (2 # 5) (given ≫= p_slow);
          requireApproval := default (3 # 5) (given ≫= p_requireApproval);
          halt := default (4 # 5) (given ≫= p_halt) |};
     actionDelayMs := default 250 delay |}.

(** [resolveAction(score)]. *)
Definition resolveAction (this : engine) (score : Q)
  : AnomalyMitigationAction * option Q :=
  if geb score (halt (thresholds this))
  then (HALT, Some (halt (thresholds this)))
  else if geb score (requireApproval (thresholds this))
  then (REQUIRE_APPROVAL, Some (requireApproval (thresholds this)))
  else if geb score (slow (thresholds this))
  then (SLOW, Some (slow (thresholds this)))
  else if geb score (warn (thresholds this))
  then (WARN, Some (warn (thresholds this)))
  else (NONE, None).

(** [computeDeviationScore(predicted, live)]. *)
Definition deltas (predicted live : BehaviorVector) : list Q :=
  [ Qabs (intentDeviationRisk predicted - intentDeviationRisk live);
    Qabs (scopeDriftRisk predicted - scopeDriftRisk live);
    Qabs (apiNoveltyRisk predicted - apiNoveltyRisk live);
    Qabs (sensitiveDataExposureRisk predicted - sensitiveDataExposureRisk live);
    Qabs (cooperativeInstabilityRisk predicted - cooperativeInstabilityRisk live);
    Qabs (dataVolumeRisk predicted - dataVolumeRisk live) ].

Definition computeDeviationScore (predicted live : BehaviorVector) : Q :=
  let ds := deltas predicted live in
  let meanDelta := sum ds / len ds in
  Qmax 0 (Qmin 1 meanDelta).

(** [intentSimilarity(observed, declared)]. *)
Definition longToken (token : string) : bool := (3 <? String.length token)%nat.

(** [new Set(text.split(/\s+/).filter(token => token.length > 3))]. *)
Definition tokenArray (text : string) : list string :=
  newSet (List.filter longToken (splitSpaces text)).

Definition intentSimilarity (observed declared : string) : Q :=
  let observedTokens := tokenArray observed in
  let declaredTokens := tokenArray declared in
  if (setSize observedTokens =? 0)%nat || (setSize declaredTokens =? 0)%nat
  then 0
  else
    let overlap :=
      fold_left (fun overlap token =>
                   if setHas declaredTokens token then overlap + 1 else overlap)
                observedTokens 0 in
    overlap / inject_Z (Z.of_nat (setSize declaredTokens)).

Definition highImpactIntentWords : list string :=
  ["delete"; "drop"; "exfiltrate"; "disable"; "override"; "shutdown"]%string.

(** The sum of [recordCount || 0] over the accesses that pass [keep]. *)
Definition readTotal (keep : DataAccess -> bool) (accesses : list DataAccess) : Q :=
  fold_left (fun acc access => acc + orZero (recordCount access))
            (List.filter keep accesses) 0.

Definition isRead (access : DataAccess) : bool :=
  match operation access with OpRead => true | OpWrite => false end.

Definition isSensitiveRead (access : DataAccess) : bool :=
  isRead access
  && match sensitivity access with
     | SensMedium | SensHigh => true
     | SensLow => false
     end.

(** The body of the [map] callback over the cooperative signals.
    [signal.conflictScore && ...] is false for an absent score and for the
    score [0]. *)
Definition instabilityValue (policy : InProcessMonitorPolicy)
    (signal : CooperativeSignal) : Q :=
  let stabilityDeficit :=
    if ltb (stabilityScore signal) (minCooperativeStability policy)
    then minCooperativeStability policy - stabilityScore signal
    else 0 in
  let conflictExcess :=
    match conflictScore signal with
    | Some c =>
        if negb (Qeq_bool c 0) && gtb c (maxCooperativeConflict policy)
        then c - maxCooperativeConflict policy
        else 0
    | None => 0
    end in
  clamp01 (stabilityDeficit + conflictExcess).

(** [deriveLiveBehaviorVector(context, step, policy)]; of the context only
    the declared intent is read. *)
Definition deriveLiveBehaviorVector (intent : string) (step : ExecutionStep)
    (policy : InProcessMonitorPolicy) : BehaviorVector :=
  let normalize := clamp01 in
  let observed := toLowerCase (default EmptyString (observedIntent step)) in
  let declared := toLowerCase intent in
  let intentRisk :=
    if String.eqb observed EmptyString then 0
    else if geb (intentSimilarity observed declared) (1 # 4) then 0
    else if existsb (fun word => includes observed word) highImpactIntentWords
         then 1 else 65 # 100 in
  let usedScopes := default [] (authorityScopeUsed step) in
  let unauthorizedScopes :=
    List.filter (fun scope => negb (arrayIncludes (declaredAuthorityScope policy) scope))
           usedScopes in
  let scopeRisk :=
    if (length usedScopes =? 0)%nat then 0
    else normalize (len unauthorizedScopes / len usedScopes) in
  let usedApis := default [] (apiCalls step) in
  let unexpectedApis :=
    List.filter (fun api => negb (arrayIncludes (allowedApis policy) api)) usedApis in
  let apiRisk :=
    if (length usedApis =? 0)%nat then 0
    else normalize (len unexpectedApis / len usedApis) in
  let stepReads := readTotal isRead (default [] (dataAccess step)) in
  let stepSensitiveReads := readTotal isSensitiveRead (default [] (dataAccess step)) in
  let sensitiveRisk :=
    if Qeq_bool stepReads 0 then 0 else normalize (stepSensitiveReads / stepReads) in
  let volumeRisk := normalize (stepReads / Qmax 1 (maxRecordsPerStep policy)) in
  let cooperativeRisk :=
    match cooperativeSignals step with
    | Some (signal :: signals) =>
        let instabilityValues := map (instabilityValue policy) (signal :: signals) in
        normalize (sum instabilityValues / len instabilityValues)
    | _ => 0
    end in
  {| intentDeviationRisk := normalize intentRisk;
     scopeDriftRisk := scopeRisk;
     apiNoveltyRisk := apiRisk;
     sensitiveDataExposureRisk := sensitiveRisk;
     cooperativeInstabilityRisk := cooperativeRisk;
     dataVolumeRisk := volumeRisk |}.

(** [enforceDelayIfNeeded(action)]: the time in milliseconds for which the
    caller is suspended, if it is. *)
Definition enforceDelayIfNeeded (this : engine) (action : AnomalyMitigationAction)
  : option Q :=
  match action with
  | SLOW => Some (actionDelayMs this)
  | _ => None
  end.

Definition defaultPredictedVector : BehaviorVector :=
  {| intentDeviationRisk := 15 # 100;
     scopeDriftRisk := 15 # 100;
     apiNoveltyRisk := 15 # 100;
     sensitiveDataExposureRisk := 20 # 100;
     cooperativeInstabilityRisk := 15 # 100;
     dataVolumeRisk := 25 # 100 |}.

Record AnomalyDetectionDecision : Type := {
  deviationScore : Q;
  action : AnomalyMitigationAction;
  predicted : BehaviorVector;
  live : BehaviorVector;
  threshold : option Q
}.

(** [evaluate(context, step, policy)]; of the context the predicted vector
    and the declared intent are read. *)
Definition evaluate (this : engine) (predictedBehaviorVector : option BehaviorVector)
    (intent : string) (step : ExecutionStep) (policy : InProcessMonitorPolicy)
  : AnomalyDetectionDecision :=
  let predicted := default defaultPredictedVector predictedBehaviorVector in
  let live := deriveLiveBehaviorVector intent step policy in
  let deviationScore := computeDeviationScore predicted live in
  let '(action, threshold) := resolveAction this deviationScore in
  {| deviationScore := deviationScore;
     action := action;
     predicted := predicted;
     live := live;
     threshold := threshold |}.

End AnomalyDetectionEngine.

(** ** Contexts, violations and the process state *)

(** Modelled from the spec: the enumerations and records of [core/models]
    that describe an action under enforcement (sections 3 and 4.4); the
    states, severities and categories are those that the specification and
    the code name, with one constructor for the members they do not. *)
Inductive EnforcementState : Type :=
| PENDING
| PRE_EXECUTION_FAILED
| SUSPENDED
| COMPLETED
| AUDIT_PASSED
| AUDIT_FAILED
| OTHER_STATE (name : string).

Inductive ViolationSeverity : Type := LOW | MEDIUM | HIGH | CRITICAL.

Inductive ViolationCategory : Type :=
| COMPLIANCE
| OTHER_CATEGORY (name : string).

Record Violation : Type := {
  id : string;
  timestamp : N;
  category : ViolationCategory;
  severity : ViolationSeverity;
  description : string;
  sourceLayer : string;
  metadata : list (string * option Js.value)
}.

Record Intervention : Type := {
  appliedAction : AnomalyMitigationAction;
  score : Q;
  crossedThreshold : option Q;
  appliedAt : N
}.

Record RemediationReport : Type := {
  rollbackTransactions : list Js.value
}.

Record ActionContext : Type := {
  actionId : string;
  agentId : string;
  intent : string;
  params : gmap string Js.value;
  startTime : N;
  endTime : option N;
  status : EnforcementState;
  violations : list Violation;
  interventions : list Intervention;
  systemChanges : option (list Js.value);
  stakeholders : option (list Js.value);
  trustCoefficient : Q;
  predictedBehaviorVector : option BehaviorVector;
  remediationReport : option RemediationReport
}.

(** Assignments to one property of a context. *)
Definition set_status (s : EnforcementState) (c : ActionContext) : ActionContext :=
  {| actionId := actionId c; agentId := agentId c; intent := intent c;
     params := params c; startTime := startTime c; endTime := endTime c;
     status := s; violations := violations c; interventions := interventions c;
     systemChanges := systemChanges c; stakeholders := stakeholders c;
     trustCoefficient := trustCoefficient c;
     predictedBehaviorVector := predictedBehaviorVector c;
     remediationReport := remediationReport c |}.

Definition set_endTime (t : option N) (c : ActionContext) : ActionContext :=
  {| actionId := actionId c; agentId := agentId c; intent := intent c;
     params := params c; startTime := startTime c; endTime := t;
     status := status c; violations := violations c; interventions := interventions c;
     systemChanges := systemChanges c; stakeholders := stakeholders c;
     trustCoefficient := trustCoefficient c;
     predictedBehaviorVector := predictedBehaviorVector c;
     remediationReport := remediationReport c |}.

Definition set_violations (vs : list Violation) (c : ActionContext) : ActionContext :=
  {| actionId := actionId c; agentId := agentId c; intent := intent c;
     params := params c; startTime := startTime c; endTime := endTime c;
     status := status c; violations := vs; interventions := interventions c;
     systemChanges := systemChanges c; stakeholders := stakeholders c;
     trustCoefficient := trustCoefficient c;
     predictedBehaviorVector := predictedBehaviorVector c;
     remediationReport := remediationReport c |}.

(** [context.violations.push(violation)]. *)
Definition push_violation (v : Violation) (c : ActionContext) : ActionContext :=
  set_violations (violations c ++ [v]) c.

(** A reference to a context object. *)
Abbreviation ref := positive (only parsing).

(** Modelled from the spec: the events of [core/event-bus], which is not
    among the sources, with the payloads of section 6.  A context travels in
    a payload by reference. *)
Inductive Event : Type :=
| ACTION_PROPOSED (context : ref)
| ACTION_COMPLETED (context : ref)
| VIOLATION_DETECTED (action : string) (violation : Violation)
| REMEDIATION_TRIGGERED (context : ref)
| REMEDIATION_COMPLETED (context : ref)
| AUDIT_STARTED (context : ref)
| AUDIT_COMPLETED (context : ref).

(** The state of the process: the context objects, the orchestrator's map
    of active actions, what has been published on the bus, the clock. *)
Record World : Type := {
  store : gmap positive ActionContext;
  activeActions : gmap string positive;
  published : list Event;
  clock : N
}.

Definition set_store (f : gmap positive ActionContext -> gmap positive ActionContext)
    (w : World) : World :=
  {| store := f (store w); activeActions := activeActions w;
     published := published w; clock := clock w |}.

Definition set_activeActions (f : gmap string positive -> gmap string positive)
    (w : World) : World :=
  {| store := store w; activeActions := f (activeActions w);
     published := published w; clock := clock w |}.

Definition set_published (f : list Event -> list Event) (w : World) : World :=
  {| store := store w; activeActions := activeActions w;
     published := f (published w); clock := clock w |}.

(** ** Computations: state passing with thrown errors *)

Inductive completion (A : Type) : Type :=
| Returned (a : A)
| Thrown (error : Js.value).
Arguments Returned {A} a.
Arguments Thrown {A} error.

Definition M (A : Type) : Type := World -> World * completion A.

#[global] Instance M_ret : MRet M := fun A a w => (w, Returned a).

#[global] Instance M_bind : MBind M := fun A B k m w =>
  match m w with
  | (w', Returned a) => k a w'
  | (w', Thrown e) => (w', Thrown e)
  end.

Definition throw {A : Type} (e : Js.value) : M A := fun w => (w, Thrown e).

(** [try { body } finally { cleanup }] for a cleanup that does not throw. *)
Definition tryFinally {A : Type} (body : M A) (cleanup : World -> World) : M A :=
  fun w => let '(w', r) := body w in (cleanup w', r).

Definition getClock : M N := fun w => (w, Returned (clock w)).

Definition update (f : World -> World) : M unit := fun w => (f w, Returned tt).

(** Reading through a reference; a reference that designates no object
    behaves as a property access on [undefined]: it throws. *)
Definition typeError : Js.value := Js.VStr "TypeError".

Definition read (context : ref) : M ActionContext := fun w =>
  match store w !! context with
  | Some c => (w, Returned c)
  | None => (w, Thrown typeError)
  end.

(** An assignment to a property of the object behind a reference. *)
Definition assign (context : ref) (f : ActionContext -> ActionContext) : M unit :=
  c ← read context;
  update (set_store <[context := f c]>).

(** Modelled from the spec: [eventBus.emit(event, payload)] of
    [core/event-bus] (section 6).  A publication is recorded in the order in
    which it is made.  For the events published with [emit], the sources
    register handlers for REMEDIATION_TRIGGERED and REMEDIATION_COMPLETED
    only ([setupEventHandlers], lines 45-52), and those write to the console
    and leave the state as it is. *)
Definition emit (e : Event) : M unit :=
  update (set_published (fun es => es ++ [e])).

(** A call of an [async] function that is not awaited: the function runs,
    and an error it throws rejects its promise instead of reaching the
    caller. *)
Definition async (body : M unit) : M unit := fun w => ((body w).1, Returned tt).

(** Modelled from the spec: the bus of [core/event-bus], as far as
    VIOLATION_DETECTED goes: the handlers registered with
    [on(VIOLATION_DETECTED, handler)], in registration order (section 6). *)
Record EventBus : Type := {
  violationHandlers : list (string -> Violation -> M unit)
}.

(** Section 6: a publication is delivered synchronously to each registered
    handler, in registration order. *)
Fixpoint deliver (handlers : list (string -> Violation -> M unit))
    (action : string) (violation : Violation) : M unit :=
  match handlers with
  | [] => mret tt
  | handler :: rest => handler action violation;; deliver rest action violation
  end.

(** Modelled from the spec: [eventBus.emitViolation(actionId, violation)]
    of [core/event-bus] (section 6): the publication is recorded, then
    delivered to the handlers before [emitViolation] returns. *)
Definition emitViolation (bus : EventBus) (action : string) (violation : Violation)
  : M unit :=
  emit (VIOLATION_DETECTED action violation);;
  deliver (violationHandlers bus) action violation.

(** Modelled from the spec: the layer interface of [layers/base-layer]
    (section 9), a name and [process(context) -> context]. *)
Record Layer : Type := {
  getName : string;
  process : ref -> M ref
}.

#[global] Instance Operation_eq_dec : EqDecision Operation.
Proof. solve_decision. Defined.

#[global] Instance EnforcementState_eq_dec : EqDecision EnforcementState.
Proof. solve_decision. Defined.

#[global] Instance ViolationSeverity_eq_dec : EqDecision ViolationSeverity.
Proof. solve_decision. Defined.

(** ** The remediation engine *)

Module RemediationEngine.

(** The engine's internals: the rollback it performs for a context. *)
Record t : Type := {
  rollback : ActionContext -> list Js.value
}.

(** Modelled from the spec: [RemediationEngine.remediate] of
    [layers/remediation/remediation-engine], which is not among the sources.
    Section 4.6 gives its contract, [remediate(context) -> RemediationReport],
    a call assumed to complete (section 5): the engine reads the context and
    returns its report.  Attaching the returned report to the context is, in
    section 4.6, the part of the caller. *)
Definition remediate (this : t) (context : ref) : M RemediationReport :=
  c ← read context;
  mret {| rollbackTransactions := rollback this c |}.

End RemediationEngine.

(** ** The post-execution layer *)

Module PostExecutionLayer.

(** The layer's collaborators: the remediation engine, and the bus on which
    it publishes ([this.eventBus] of the base layer). *)
Record t : Type := {
  remediationEngine : RemediationEngine.t;
  eventBus : EventBus
}.

Definition getName : string := "PostExecutionAuditing".

Definition triggerRemediation (this : t) (context : ref) : M unit :=
  emit (REMEDIATION_TRIGGERED context);;
  _ ← RemediationEngine.remediate (remediationEngine this) context;
  emit (REMEDIATION_COMPLETED context).

Definition isCritical (v : Violation) : bool := bool_decide (severity v = CRITICAL).

(** The violation that a failed audit synthesizes at clock reading [now]. *)
Definition auditViolation (now : N) (invalidResult : option Js.value) : Violation :=
  {| id := "v-post-" ++ Js.decimal now;
     timestamp := now;
     category := COMPLIANCE;
     severity := CRITICAL;
     description := "Final result fails compliance audit.";
     sourceLayer := getName;
     metadata := [("invalidResult"%string, invalidResult)] |}.

Definition process (this : t) (context : ref) : M ref :=
  emit (AUDIT_STARTED context);;
  c ← read context;
  let hasCriticalViolation := existsb isCritical (violations c) in
  (if hasCriticalViolation || Js.truthy (params c !! "invalidResult"%string)
   then
     now ← getClock;
     let violation := auditViolation now (params c !! "invalidResult"%string) in
     assign context (push_violation violation);;
     assign context (set_status AUDIT_FAILED);;
     c' ← read context;
     emitViolation (eventBus this) (actionId c') violation;;
     triggerRemediation this context
   else
     assign context (set_status AUDIT_PASSED));;
  emit (AUDIT_COMPLETED context);;
  mret context.

Definition layer (this : t) : Layer := Build_Layer getName (process this).

End PostExecutionLayer.

(** ** The orchestrator *)

Module GuardrailOrchestrator.

(** The orchestrator's collaborators.  The pre-execution, in-process and
    intervention layers are not among the sources: they are arbitrary
    layers, free to change the whole state and to throw. *)
Record t : Type := {
  preExecution : Layer;
  inProcess : Layer;
  postExecution : Layer;
  interventionLayer : Layer
}.

Definition getActive (action : string) : M (option ref) := fun w =>
  (w, Returned (activeActions w !! action)).

(** The body of the handler registered for [VIOLATION_DETECTED] (lines
    27-43); of the orchestrator it uses the map of active actions and the
    intervention layer. *)
Definition violationHandler (interventionLayer : Layer) (action : string)
    (violation : Violation) : M unit :=
  found ← getActive action;
  match found with
  | Some context =>
      c ← read context;
      match List.find (fun v => String.eqb (id v) (id violation)) (violations c) with
      | Some _ => mret tt
      | None => assign context (push_violation violation)
      end;;
      _ ← process interventionLayer context;
      mret tt
  | None => mret tt
  end.

(** The handler registered for [VIOLATION_DETECTED]. *)
Definition onViolationDetected (this : t) (action : string) (violation : Violation)
  : M unit :=
  violationHandler (interventionLayer this) action violation.

(** [setupEventHandlers()], lines 26-53: the bus once the orchestrator has
    registered its handlers.  The handler for VIOLATION_DETECTED is an
    [async] function; those for the remediation events write to the
    console. *)
Definition setupEventHandlers (interventionLayer : Layer) : EventBus :=
  {| violationHandlers :=
       [fun action violation => async (violationHandler interventionLayer action violation)] |}.

(** [constructor()], given the layers that are not among the sources.  The
    bus is the one of the process: the post-execution layer publishes on
    the bus on which the orchestrator has registered its handlers.  The
    process has this one orchestrator, and no other component registers a
    handler for the violation event. *)
Definition create (pre inProc intervention : Layer) (engine : RemediationEngine.t) : t :=
  {| preExecution := pre;
     inProcess := inProc;
     postExecution :=
       PostExecutionLayer.layer
         {| PostExecutionLayer.remediationEngine := engine;
            PostExecutionLayer.eventBus := setupEventHandlers intervention |};
     interventionLayer := intervention |}.

(** [`act-${Date.now()}`]. *)
Definition newActionId (now : N) : string := "act-" ++ Js.decimal now.

Definition newContext (agentId intent : string) (params : gmap string Js.value)
    (now : N) : ActionContext :=
  {| actionId := newActionId now;
     agentId := agentId;
     intent := intent;
     params := params;
     startTime := now;
     endTime := None;
     status := PENDING;
     violations := [];
     interventions := [];
     systemChanges :=
       match params !! "systemChanges"%string with
       | Some (Js.VArr items) => Some items
       | _ => None
       end;
     stakeholders :=
       match params !! "stakeholders"%string with
       | Some (Js.VArr items) => Some items
       | _ => None
       end;
     trustCoefficient :=
       match params !! "trustCoefficient"%string with
       | Some (Js.VNum q) => q
       | _ => 1%Q
       end;
     predictedBehaviorVector := None;
     remediationReport := None |}.

(** The creation of an object: a reference that designates nothing yet. *)
Definition allocate (c : ActionContext) : M ref := fun w =>
  let l := fresh (dom (store w)) in
  (set_store <[l := c]> w, Returned l).

(** Lines 56-72: the context is created, registered and announced. *)
Definition propose (agentId intent : string) (params : gmap string Js.value)
  : M (string * ref) :=
  now ← getClock;
  context ← allocate (newContext agentId intent params now);
  update (set_activeActions <[newActionId now := context]>);;
  emit (ACTION_PROPOSED context);;
  mret (newActionId now, context).

Section Coordinate.

(** What the process does while [coordinate] awaits its 500 ms timer. *)
Variable timer : World -> World.

(** The body of the [try] block. *)
Definition pipeline (this : t) (context : ref) : M ref :=
  context ← process (preExecution this) context;
  c ← read context;
  if decide (status c = PRE_EXECUTION_FAILED) then mret context
  else
    context ← process (inProcess this) context;
    c ← read context;
    if decide (status c = SUSPENDED)
    then
      now ← getClock;
      assign context (set_endTime (Some now));;
      mret context
    else
      update timer;;
      now ← getClock;
      assign context (set_endTime (Some now));;
      assign context (set_status COMPLETED);;
      emit (ACTION_COMPLETED context);;
      context ← process (postExecution this) context;
      mret context.

Definition coordinate (this : t) (agentId intent : string)
    (params : gmap string Js.value) : M ref :=
  '(action, context) ← propose agentId intent params;
  tryFinally (pipeline this context) (set_activeActions (delete action)).

End Coordinate.

End GuardrailOrchestrator.

(** * Sample inputs

    The scenarios of section 8 of the specification, as concrete inputs. *)

Module Sample.
Local Open Scope Q_scope.

(** Scenario 2: the baseline, except for a saturated API novelty risk. *)
Definition noveltyOnly : BehaviorVector :=
  {| intentDeviationRisk := 15 # 100;
     scopeDriftRisk := 15 # 100;
     apiNoveltyRisk := 1;
     sensitiveDataExposureRisk := 20 # 100;
     cooperativeInstabilityRisk := 15 # 100;
     dataVolumeRisk := 25 # 100 |}.

Definition policy : InProcessMonitorPolicy :=
  {| declaredAuthorityScope := ["reports:read"]%string;
     allowedApis := ["reports.list"]%string;
     maxRecordsPerStep := 100;
     minCooperativeStability := 7 # 10;
     maxCooperativeConflict := 3 # 10 |}.

(** Scenario 4: a step that observed nothing. *)
Definition idleStep : ExecutionStep :=
  {| observedIntent := Some ""%string;
     authorityScopeUsed := Some [];
     apiCalls := None;
     dataAccess := Some [];
     cooperativeSignals := None |}.

(** Scenario 3: a destructive intent under a reporting action. *)
Definition destructiveStep : ExecutionStep :=
  {| observedIntent := Some "Delete all production records"%string;
     authorityScopeUsed := None;
     apiCalls := None;
     dataAccess := None;
     cooperativeSignals := None |}.

(** A step whose intent shares a token with "generate report". *)
Definition relatedStep : ExecutionStep :=
  {| observedIntent := Some "Generate data"%string;
     authorityScopeUsed := None;
     apiCalls := None;
     dataAccess := None;
     cooperativeSignals := None |}.

Definition engine : RemediationEngine.t :=
  {| RemediationEngine.rollback := fun c => map (fun v => Js.VStr (id v)) (violations c) |}.

(** Layers that let every action through. *)
Definition permissive (name : string) : Layer :=
  Build_Layer name (fun context => mret context).

(** An intervention layer that suspends the action it is given. *)
Definition intervening : Layer :=
  Build_Layer "AdaptiveIntervention"
    (fun context => assign context (set_status SUSPENDED);; mret context).

(** The post-execution layer of a process whose orchestrator has a
    permissive intervention layer, and of one whose orchestrator has the
    intervention layer that suspends. *)
Definition auditor : PostExecutionLayer.t :=
  {| PostExecutionLayer.remediationEngine := engine;
     PostExecutionLayer.eventBus :=
       GuardrailOrchestrator.setupEventHandlers (permissive "Intervention") |}.

Definition interveningAuditor : PostExecutionLayer.t :=
  {| PostExecutionLayer.remediationEngine := engine;
     PostExecutionLayer.eventBus :=
       GuardrailOrchestrator.setupEventHandlers intervening |}.

(** Scenario 5: a context that reaches the audit with one CRITICAL
    violation and no [invalidResult]. *)
Definition breach : Violation :=
  {| id := "v-scope-1";
     timestamp := 1700000000100;
     category := OTHER_CATEGORY "AUTHORITY";
     severity := CRITICAL;
     description := "Scope used outside the declared authority.";
     sourceLayer := "InProcessMonitoring";
     metadata := [] |}.

Definition flagged : ActionContext :=
  {| actionId := "act-1700000000000";
     agentId := "agent-a";
     intent := "generate report";
     params := ∅;
     startTime := 1700000000000;
     endTime := Some 1700000000600%N;
     status := COMPLETED;
     violations := [breach];
     interventions := [];
     systemChanges := None;
     stakeholders := None;
     trustCoefficient := 1;
     predictedBehaviorVector := None;
     remediationReport := None |}.

Definition atAudit : World :=
  {| store := {[ 1%positive := flagged ]};
     activeActions := {[ "act-1700000000000"%string := 1%positive ]};
     published := [ACTION_PROPOSED 1; ACTION_COMPLETED 1];
     clock := 1700000000600 |}.

Definition idle : World :=
  {| store := ∅; activeActions := ∅; published := []; clock := 1700000000000 |}.

(** A pre-execution layer that rejects every action. *)
Definition rejecting : Layer :=
  Build_Layer "PreExecution"
    (fun context => assign context (set_status PRE_EXECUTION_FAILED);; mret context).

Definition rejectingOrchestrator : GuardrailOrchestrator.t :=
  GuardrailOrchestrator.create rejecting (permissive "InProcess")
                               (permissive "Intervention") engine.

Definition permissiveOrchestrator : GuardrailOrchestrator.t :=
  GuardrailOrchestrator.create (permissive "PreExecution") (permissive "InProcess")
                               (permissive "Intervention") engine.

Definition repeated : Violation :=
  {| id := "v-scope-1";
     timestamp := 1700000000200;
     category := OTHER_CATEGORY "AUTHORITY";
     severity := HIGH;
     description := "Reported again.";
     sourceLayer := "InProcessMonitoring";
     metadata := [] |}.

Definition novel : Violation :=
  {| id := "v-api-7";
     timestamp := 1700000000300;
     category := OTHER_CATEGORY "API";
     severity := MEDIUM;
     description := "Unexpected API call.";
     sourceLayer := "InProcessMonitoring";
     metadata := [] |}.

(** A step that used one undeclared scope out of two, called an unexpected
    API twice out of three calls, read 40 records of which 10 were highly
    sensitive, wrote 500, and saw two cooperative signals within the
    policy. *)
Definition busyStep : ExecutionStep :=
  {| observedIntent := Some "DELETE stale sessions now"%string;
     authorityScopeUsed := Some ["reports:read"; "admin:write"]%string;
     apiCalls := Some ["reports.list"; "users.delete"; "users.delete"]%string;
     dataAccess :=
       Some [ {| operation := OpRead; recordCount := Some 30; sensitivity := SensLow |};
              {| operation := OpRead; recordCount := Some 10; sensitivity := SensHigh |};
              {| operation := OpWrite; recordCount := Some 500; sensitivity := SensHigh |};
              {| operation := OpRead; recordCount := None; sensitivity := SensMedium |} ];
     cooperativeSignals :=
       Some [ {| stabilityScore := 9 # 10; conflictScore := Some (1 # 10) |};
              {| stabilityScore := 7 # 10; conflictScore := None |} ] |}.

(** A step that read 30 records of low sensitivity and wrote 500 highly
    sensitive ones, with one cooperative signal far outside the policy. *)
Definition routineStep : ExecutionStep :=
  {| observedIntent := Some "generate report"%string;
     authorityScopeUsed := Some ["reports:read"]%string;
     apiCalls := Some ["reports.list"]%string;
     dataAccess :=
       Some [ {| operation := OpRead; recordCount := Some 30; sensitivity := SensLow |};
              {| operation := OpWrite; recordCount := Some 500; sensitivity := SensHigh |} ];
     cooperativeSignals :=
       Some [ {| stabilityScore := -3; conflictScore := Some 12 |} ] |}.

(** A step whose observed intent has no word longer than three
    characters. *)
Definition terseStep : ExecutionStep :=
  {| observedIntent := Some "rm -rf tmp"%string;
     authorityScopeUsed := None;
     apiCalls := None;
     dataAccess := None;
     cooperativeSignals := None |}.

(** A context that reaches the audit without violations. *)
Definition clean : ActionContext :=
  {| actionId := "act-1700000000000";
     agentId := "agent-a";
     intent := "generate report";
     params := ∅;
     startTime := 1700000000000;
     endTime := Some 1700000000600%N;
     status := COMPLETED;
     violations := [];
     interventions := [];
     systemChanges := None;
     stakeholders := None;
     trustCoefficient := 1;
     predictedBehaviorVector := None;
     remediationReport := None |}.

Definition atCleanAudit : World :=
  {| store := {[ 1%positive := clean ]};
     activeActions := {[ "act-1700000000000"%string := 1%positive ]};
     published := [ACTION_PROPOSED 1; ACTION_COMPLETED 1];
     clock := 1700000000600 |}.



(** The flagged context after one audit, and after a second audit at the
    same clock reading. *)
Definition auditedOnce : World :=
  (PostExecutionLayer.process auditor 1%positive atAudit).1.

Definition auditedTwice : World :=
  (PostExecutionLayer.process auditor 1%positive auditedOnce).1.

(** In-process layers that suspend the action, and that throw. *)
Definition suspending : Layer :=
  Build_Layer "InProcess"
    (fun context => assign context (set_status SUSPENDED);; mret context).

Definition throwing : Layer :=
  Build_Layer "InProcess" (fun _ => throw (Js.VStr "monitor unavailable")).

End Sample.

(** * The formulas of the specification

    The definitions of this part follow the words of the specification; the
    properties below compare them with the code. *)

Module Spec.
Import Js.
Local Open Scope Q_scope.

(** Section 3: each of the six scores of a behaviour vector is in [0,1]. *)
Definition inUnit (x : Q) : Prop := 0 <= x /\ x <= 1.

Definition valid (v : BehaviorVector) : Prop :=
  inUnit (intentDeviationRisk v) /\ inUnit (scopeDriftRisk v) /\
  inUnit (apiNoveltyRisk v) /\ inUnit (sensitiveDataExposureRisk v) /\
  inUnit (cooperativeInstabilityRisk v) /\ inUnit (dataVolumeRisk v).

(** "Clamped to [0,1]". *)
Definition clamp (x : Q) : Q :=
  if ltb x 0 then 0 else if ltb 1 x then 1 else x.

(** Section 4.1: the mean of the six absolute per-dimension differences. *)
Definition meanAbsoluteDifference (p l : BehaviorVector) : Q :=
  (Qabs (intentDeviationRisk p - intentDeviationRisk l)
   + Qabs (scopeDriftRisk p - scopeDriftRisk l)
   + Qabs (apiNoveltyRisk p - apiNoveltyRisk l)
   + Qabs (sensitiveDataExposureRisk p - sensitiveDataExposureRisk l)
   + Qabs (cooperativeInstabilityRisk p - cooperativeInstabilityRisk l)
   + Qabs (dataVolumeRisk p - dataVolumeRisk l)) / 6.

(** Section 4.2: the thresholds are tried from the highest to the lowest;
    the first one that the score meets or exceeds gives the action and is
    the threshold crossed; [NONE] carries no threshold. *)
Inductive resolve (th : AnomalyToleranceThresholds) (score : Q)
  : AnomalyMitigationAction -> option Q -> Prop :=
| resolve_halt :
    halt th <= score ->
    resolve th score HALT (Some (halt th))
| resolve_requireApproval :
    ~ halt th <= score -> requireApproval th <= score ->
    resolve th score REQUIRE_APPROVAL (Some (requireApproval th))
| resolve_slow :
    ~ halt th <= score -> ~ requireApproval th <= score -> slow th <= score ->
    resolve th score SLOW (Some (slow th))
| resolve_warn :
    ~ halt th <= score -> ~ requireApproval th <= score -> ~ slow th <= score ->
    warn th <= score ->
    resolve th score WARN (Some (warn th))
| resolve_none :
    ~ halt th <= score -> ~ requireApproval th <= score -> ~ slow th <= score ->
    ~ warn th <= score ->
    resolve th score NONE None.

(** Section 4.1: the set of the tokens of a text that are longer than three
    characters. *)
Definition tokenSet (text : string) : gset string :=
  list_to_set (filter (fun token => (3 < String.length token)%nat) (splitSpaces text)).

(** Section 4.1: the count of declared tokens also present among the
    observed tokens, divided by the count of declared tokens; 0 if either
    token set is empty. *)
Definition similarity (observed declared : string) : Q :=
  let O := tokenSet observed in
  let D := tokenSet declared in
  if decide (O = ∅ \/ D = ∅) then 0
  else inject_Z (Z.of_nat (size (filter (fun token => token ∈ O) D)))
       / inject_Z (Z.of_nat (size D)).

(** [word] appears as a substring of [text]. *)
Definition substring (word text : string) : Prop :=
  exists before after : string, text = (before ++ word ++ after)%string.

Definition highImpactVerbs : list string :=
  ["delete"; "drop"; "exfiltrate"; "disable"; "override"; "shutdown"]%string.

(** The mean of a sequence of numbers. *)
Definition mean (xs : list Q) : Q := sum xs / len xs.

(** Section 4.1: [clamp(max(0, minCooperativeStability - stabilityScore)
    + max(0, conflictScore - maxCooperativeConflict))]; a signal without a
    conflict score has no conflict term. *)
Definition signalInstability (policy : InProcessMonitorPolicy)
    (signal : CooperativeSignal) : Q :=
  clamp (Qmax 0 (minCooperativeStability policy - stabilityScore signal)
         + match conflictScore signal with
           | Some c => Qmax 0 (c - maxCooperativeConflict policy)
           | None => 0
           end).

Definition cooperativeInstability (step : ExecutionStep)
    (policy : InProcessMonitorPolicy) : Q :=
  match cooperativeSignals step with
  | None | Some [] => 0
  | Some signals => mean (map (signalInstability policy) signals)
  end.

(** The total read record count of a step. *)
Definition totalReads (step : ExecutionStep) : Q :=
  sum (map (fun access => default 0 (recordCount access))
           (List.filter (fun access => bool_decide (operation access = OpRead))
                        (default [] (dataAccess step)))).


(** The severity tiers, from the mildest to the gravest. *)
Definition severityRank (a : AnomalyMitigationAction) : nat :=
  match a with
  | NONE => 0
  | WARN => 1
  | SLOW => 2
  | REQUIRE_APPROVAL => 3
  | HALT => 4
  end.

(** Section 3: the four cut points ascend. *)
Definition ascending (th : AnomalyToleranceThresholds) : Prop :=
  warn th <= slow th /\ slow th <= requireApproval th
  /\ requireApproval th <= halt th.

(** Two vectors with the same six scores. *)
Definition sameVector (p l : BehaviorVector) : Prop :=
  intentDeviationRisk p == intentDeviationRisk l
  /\ scopeDriftRisk p == scopeDriftRisk l
  /\ apiNoveltyRisk p == apiNoveltyRisk l
  /\ sensitiveDataExposureRisk p == sensitiveDataExposureRisk l
  /\ cooperativeInstabilityRisk p == cooperativeInstabilityRisk l
  /\ dataVolumeRisk p == dataVolumeRisk l.

(** The number of dimensions on which two vectors differ. *)
Definition differs (x y : Q) : nat := if Qeq_bool x y then 0 else 1.

Definition differingDimensions (p l : BehaviorVector) : nat :=
  differs (intentDeviationRisk p) (intentDeviationRisk l)
  + differs (scopeDriftRisk p) (scopeDriftRisk l)
  + differs (apiNoveltyRisk p) (apiNoveltyRisk l)
  + differs (sensitiveDataExposureRisk p) (sensitiveDataExposureRisk l)
  + differs (cooperativeInstabilityRisk p) (cooperativeInstabilityRisk l)
  + differs (dataVolumeRisk p) (dataVolumeRisk l).

(** The read accesses of a step, and those of medium or high sensitivity. *)
Definition reads (step : ExecutionStep) : list DataAccess :=
  List.filter (fun access => bool_decide (operation access = OpRead))
              (default [] (dataAccess step)).

Definition sensitive (access : DataAccess) : Prop :=
  sensitivity access = SensMedium \/ sensitivity access = SensHigh.

(** The read record count of medium or high sensitivity of a step. *)
Definition sensitiveReads (step : ExecutionStep) : Q :=
  sum (map (fun access => default 0 (recordCount access))
           (List.filter (fun access =>
                           match sensitivity access with
                           | SensLow => false
                           | _ => true
                           end)
                        (reads step))).

(** A handler stands by the audit of [context]: delivered a violation that
    the context already holds, it returns, it leaves the status and the
    violations of that context as they are, and it withdraws nothing of what
    was published; [reactions] is what it publishes. *)
Definition standsBy (handler : string -> Violation -> M unit) (context : ref) : Prop :=
  forall (action : string) (violation : Violation) (w : World) (c : ActionContext),
    store w !! context = Some c ->
    violation ∈ violations c ->
    exists (w' : World) (c' : ActionContext) (reactions : list Event),
      handler action violation w = (w', Returned tt)
      /\ store w' !! context = Some c'
      /\ status c' = status c
      /\ violations c' = violations c
      /\ published w' = published w ++ reactions.

(** Every handler registered on the bus stands by the audit of [context]. *)
Definition bystanders (bus : EventBus) (context : ref) : Prop :=
  Forall (fun handler => standsBy handler context) (violationHandlers bus).

(** A layer that, whatever context it is run on and whether it returns or
    throws, leaves the status and the violations of [context] as they are
    and withdraws nothing of what was published. *)
Definition keepsAudit (layer : Layer) (context : ref) : Prop :=
  forall (target : ref) (w : World) (c : ActionContext),
    store w !! context = Some c ->
    exists (c' : ActionContext) (reactions : list Event),
      store (process layer target w).1 !! context = Some c'
      /\ status c' = status c
      /\ violations c' = violations c
      /\ published (process layer target w).1 = published w ++ reactions.

(** A violation with identifier [ident] is present in [vs]. *)
Definition hasId (ident : string) (vs : list Violation) : Prop :=
  exists v : Violation, v ∈ vs /\ id v = ident.

End Spec.

(** * Properties *)

(** ** Numbers *)

Section Numbers.
Import Js.
Local Open Scope Q_scope.

Lemma geb_true (a b : Q) : geb a b = true <-> b <= a.
Proof. unfold geb. apply Qle_bool_iff. Qed.

Lemma geb_false (a b : Q) : geb a b = false <-> ~ b <= a.
Proof.
  rewrite <- geb_true. destruct (geb a b); intuition congruence.
Qed.

Lemma ltb_true (a b : Q) : ltb a b = true <-> a < b.
Proof.
  unfold ltb. rewrite negb_true_iff. change (Qle_bool b a) with (geb a b).
  rewrite geb_false. split; [apply Qnot_le_lt | apply Qlt_not_le].
Qed.

Lemma ltb_false (a b : Q) : ltb a b = false <-> b <= a.
Proof.
  unfold ltb. rewrite negb_false_iff. apply Qle_bool_iff.
Qed.

Lemma gtb_true (a b : Q) : gtb a b = true <-> b < a.
Proof. apply (ltb_true b a). Qed.

Lemma gtb_false (a b : Q) : gtb a b = false <-> a <= b.
Proof. apply (ltb_false b a). Qed.

Lemma clamp01_bounds (x : Q) : 0 <= clamp01 x /\ clamp01 x <= 1.
Proof.
  unfold clamp01. split.
  - apply Q.le_max_l.
  - apply Q.max_lub; [discriminate | apply Q.le_min_l].
Qed.

Lemma clamp01_id (x : Q) : 0 <= x -> x <= 1 -> clamp01 x == x.
Proof.
  intros H0 H1. unfold clamp01.
  rewrite (Q.min_r 1 x) by exact H1. now apply Q.max_r.
Qed.

#[global] Instance clamp01_proper : Proper (Qeq ==> Qeq) clamp01.
Proof. intros x y E. unfold clamp01. now rewrite E. Qed.

Lemma clamp01_low (x : Q) : x <= 0 -> clamp01 x == 0.
Proof.
  intros H. unfold clamp01. apply Q.max_l.
  apply Qle_trans with x; [apply Q.le_min_r | exact H].
Qed.

Lemma clamp01_high (x : Q) : 1 <= x -> clamp01 x == 1.
Proof.
  intros H. unfold clamp01. rewrite (Q.min_l 1 x) by exact H.
  apply Q.max_r. discriminate.
Qed.

End Numbers.

(** ** The mitigation policy *)

Section MitigationPolicy.
Import Js AnomalyDetectionEngine.
Local Open Scope Q_scope.

Local Ltac decide_tier :=
  match goal with
  | |- context [geb ?a ?b] =>
      let E := fresh "E" in
      destruct (geb a b) eqn:E;
      [apply geb_true in E | apply geb_false in E]
  end.

(** C2. For every score and every thresholds record, [resolveAction] yields
    an action and a threshold exactly when the specification's policy does:
    score >= halt gives HALT, else score >= requireApproval gives
    REQUIRE_APPROVAL, else score >= slow gives SLOW, else score >= warn gives
    WARN, else NONE; the threshold returned is that of the matched tier, and
    NONE comes with no threshold. *)
Theorem resolveAction_meets_policy (this : engine) (score : Q)
    (a : AnomalyMitigationAction) (crossed : option Q) :
  resolveAction this score = (a, crossed)
  <-> Spec.resolve (thresholds this) score a crossed.
Proof.
  unfold resolveAction. split.
  - repeat decide_tier; intros H; inversion H; subst; now constructor.
  - intros H. destruct H; repeat decide_tier; tauto.
Qed.

End MitigationPolicy.

(** ** The deviation score *)

Section DeviationScore.
Import Js AnomalyDetectionEngine.
Local Open Scope Q_scope.

Lemma clamp01_clamp (x : Q) : clamp01 x == Spec.clamp x.
Proof.
  unfold Spec.clamp.
  destruct (ltb x 0) eqn:E0.
  - apply ltb_true in E0. apply clamp01_low. now apply Qlt_le_weak.
  - apply ltb_false in E0. destruct (ltb 1 x) eqn:E1.
    + apply ltb_true in E1. apply clamp01_high. now apply Qlt_le_weak.
    + apply ltb_false in E1. now apply clamp01_id.
Qed.

Lemma meanDelta_mean (p l : BehaviorVector) :
  sum (deltas p l) / len (deltas p l) == Spec.meanAbsoluteDifference p l.
Proof.
  unfold Spec.meanAbsoluteDifference, deltas, sum, len. simpl.
  change (inject_Z 6) with 6. field.
Qed.

Lemma computeDeviationScore_clamp (p l : BehaviorVector) :
  computeDeviationScore p l == Spec.clamp (Spec.meanAbsoluteDifference p l).
Proof.
  unfold computeDeviationScore. cbv zeta.
  change (Qmax 0 (Qmin 1 ?x)) with (clamp01 x).
  rewrite meanDelta_mean. apply clamp01_clamp.
Qed.

Lemma Qabs_diff_unit (x y : Q) : Spec.inUnit x -> Spec.inUnit y -> Qabs (x - y) <= 1.
Proof.
  intros [Hx0 Hx1] [Hy0 Hy1]. apply Qabs_Qle_condition. split.
  - apply Qle_trans with (0 - 1); [discriminate |].
    unfold Qminus. apply Qplus_le_compat; [exact Hx0 | now apply Qopp_le_compat].
  - apply Qle_trans with (1 - 0); [| discriminate].
    unfold Qminus. apply Qplus_le_compat; [exact Hx1 | now apply Qopp_le_compat].
Qed.

(** For valid vectors the mean is already in [0,1]: the clamp is idle. *)
Lemma meanAbsoluteDifference_unit (p l : BehaviorVector) :
  Spec.valid p -> Spec.valid l -> Spec.inUnit (Spec.meanAbsoluteDifference p l).
Proof.
  intros (P1 & P2 & P3 & P4 & P5 & P6) (L1 & L2 & L3 & L4 & L5 & L6).
  pose proof (Qabs_diff_unit _ _ P1 L1) as U1.
  pose proof (Qabs_diff_unit _ _ P2 L2) as U2.
  pose proof (Qabs_diff_unit _ _ P3 L3) as U3.
  pose proof (Qabs_diff_unit _ _ P4 L4) as U4.
  pose proof (Qabs_diff_unit _ _ P5 L5) as U5.
  pose proof (Qabs_diff_unit _ _ P6 L6) as U6.
  pose proof (Qabs_nonneg (intentDeviationRisk p - intentDeviationRisk l)) as N1.
  pose proof (Qabs_nonneg (scopeDriftRisk p - scopeDriftRisk l)) as N2.
  pose proof (Qabs_nonneg (apiNoveltyRisk p - apiNoveltyRisk l)) as N3.
  pose proof (Qabs_nonneg (sensitiveDataExposureRisk p - sensitiveDataExposureRisk l)) as N4.
  pose proof (Qabs_nonneg (cooperativeInstabilityRisk p - cooperativeInstabilityRisk l)) as N5.
  pose proof (Qabs_nonneg (dataVolumeRisk p - dataVolumeRisk l)) as N6.
  unfold Spec.meanAbsoluteDifference, Spec.inUnit.
  set (d1 := Qabs _) in *. set (d2 := Qabs _) in *. set (d3 := Qabs _) in *.
  set (d4 := Qabs _) in *. set (d5 := Qabs _) in *. set (d6 := Qabs _) in *.
  split.
  - apply Qle_shift_div_l; [reflexivity |]. lra.
  - apply Qle_shift_div_r; [reflexivity |]. lra.
Qed.

Lemma computeDeviationScore_unclamped (p l : BehaviorVector) :
  Spec.valid p -> Spec.valid l ->
  computeDeviationScore p l == Spec.meanAbsoluteDifference p l.
Proof.
  intros Hp Hl. destruct (meanAbsoluteDifference_unit p l Hp Hl) as [H0 H1].
  unfold computeDeviationScore. cbv zeta.
  change (Qmax 0 (Qmin 1 ?x)) with (clamp01 x).
  rewrite meanDelta_mean. now apply clamp01_id.
Qed.

Lemma computeDeviationScore_same (v : BehaviorVector) : computeDeviationScore v v == 0.
Proof.
  rewrite computeDeviationScore_clamp.
  assert (E : Spec.meanAbsoluteDifference v v == 0).
  { unfold Spec.meanAbsoluteDifference.
    assert (Z : forall x : Q, Qabs (x - x) == 0).
    { intros x. assert (D : x - x == 0) by ring. now rewrite D. }
    rewrite !Z. reflexivity. }
  rewrite <- clamp01_clamp, E. reflexivity.
Qed.

(** C1. For every predicted and live vector with all six components in
    [0,1], the deviation score is the mean of the six absolute
    per-dimension differences, clamped to [0,1] (and the clamp leaves that
    mean as it is); the score is in [0,1]; and the score of any vector
    against itself is 0. *)
Theorem computeDeviationScore_spec :
  (forall predicted live : BehaviorVector,
      Spec.valid predicted -> Spec.valid live ->
      computeDeviationScore predicted live
        == Spec.clamp (Spec.meanAbsoluteDifference predicted live)
      /\ computeDeviationScore predicted live
           == Spec.meanAbsoluteDifference predicted live
      /\ 0 <= computeDeviationScore predicted live <= 1)
  /\ (forall v : BehaviorVector, computeDeviationScore v v == 0).
Proof.
  split.
  - intros p l Hp Hl. split; [apply computeDeviationScore_clamp |].
    split; [now apply computeDeviationScore_unclamped |].
    apply (clamp01_bounds (sum (deltas p l) / len (deltas p l))).
  - apply computeDeviationScore_same.
Qed.

End DeviationScore.

(** ** Sums and means *)

Section Sums.
Import Js.
Local Open Scope Q_scope.

Lemma fold_sum (xs : list Q) (a : Q) :
  fold_left (fun acc x => acc + x) xs a == a + sum xs.
Proof.
  unfold sum. revert a. induction xs as [| x xs IH]; intros a; simpl.
  - ring.
  - rewrite (IH (a + x)), (IH (0 + x)). ring.
Qed.

Lemma sum_cons (x : Q) (xs : list Q) : sum (x :: xs) == x + sum xs.
Proof. unfold sum at 1. simpl. rewrite fold_sum. ring. Qed.

Lemma sum_proper (xs ys : list Q) : Forall2 Qeq xs ys -> sum xs == sum ys.
Proof.
  induction 1 as [| x y xs ys E _ IH]; [reflexivity |].
  now rewrite !sum_cons, E, IH.
Qed.

Lemma len_cons {A : Type} (x : A) (xs : list A) : len (x :: xs) == 1 + len xs.
Proof.
  unfold len. cbn [length]. rewrite Nat2Z.inj_succ, <- Z.add_1_l.
  now rewrite inject_Z_plus.
Qed.

Lemma len_nonneg {A : Type} (xs : list A) : 0 <= len xs.
Proof.
  unfold len. change 0 with (inject_Z 0). rewrite <- Zle_Qle. lia.
Qed.

Lemma sum_unit_bounds (xs : list Q) :
  Forall Spec.inUnit xs -> 0 <= sum xs /\ sum xs <= len xs.
Proof.
  induction 1 as [| x xs [H0 H1] _ [IH0 IH1]].
  - split; [discriminate | unfold sum, len; simpl; discriminate].
  - rewrite sum_cons, len_cons. split; lra.
Qed.

(** The mean of a non-empty sequence of numbers of [0,1] is in [0,1]. *)
Lemma mean_unit (x : Q) (xs : list Q) :
  Forall Spec.inUnit (x :: xs) -> Spec.inUnit (Spec.mean (x :: xs)).
Proof.
  intros H. destruct (sum_unit_bounds _ H) as [H0 H1].
  assert (P : 0 < len (x :: xs)).
  { rewrite len_cons. pose proof (len_nonneg xs). lra. }
  unfold Spec.mean, Spec.inUnit. split.
  - apply Qle_shift_div_l; [exact P | lra].
  - apply Qle_shift_div_r; [exact P | lra].
Qed.

Lemma orZero_default (n : option Q) : orZero n == default 0 n.
Proof.
  destruct n as [q |]; simpl; [| reflexivity].
  destruct (Qeq_bool q 0) eqn:E; [| reflexivity].
  apply Qeq_bool_iff in E. now rewrite E.
Qed.

End Sums.

(** ** The live behaviour vector *)

Section LiveVector.
Import Js AnomalyDetectionEngine.
Local Open Scope Q_scope.

Variables (declaredIntent : string) (step : ExecutionStep)
          (policy : InProcessMonitorPolicy).

Let live := deriveLiveBehaviorVector declaredIntent step policy.

Lemma readTotal_sum (keep : DataAccess -> bool) (accesses : list DataAccess) :
  readTotal keep accesses
  == sum (map (fun access => default 0 (recordCount access))
              (List.filter keep accesses)).
Proof.
  unfold readTotal.
  assert (G : forall (l : list DataAccess) (a : Q),
             fold_left (fun acc access => acc + orZero (recordCount access)) l a
             == a + sum (map (fun access => default 0 (recordCount access)) l)).
  { induction l as [| d l IH]; intros a; simpl.
    - unfold sum. simpl. ring.
    - rewrite IH, sum_cons, orZero_default. ring. }
  rewrite G. ring.
Qed.

Lemma stepReads_totalReads :
  readTotal isRead (default [] (dataAccess step)) == Spec.totalReads step.
Proof.
  rewrite readTotal_sum. unfold Spec.totalReads.
  assert (E : forall l : list DataAccess,
             List.filter isRead l
             = List.filter (fun access => bool_decide (operation access = OpRead)) l).
  { intros l. apply List.filter_ext. intros a. unfold isRead.
    destruct (operation a); reflexivity. }
  now rewrite E.
Qed.

Lemma live_scopeDriftRisk :
  scopeDriftRisk live
  = let usedScopes := default [] (authorityScopeUsed step) in
    if (length usedScopes =? 0)%nat then 0
    else clamp01
           (len (List.filter
                   (fun scope => negb (arrayIncludes (declaredAuthorityScope policy) scope))
                   usedScopes)
            / len usedScopes).
Proof. reflexivity. Qed.

Lemma live_apiNoveltyRisk :
  apiNoveltyRisk live
  = let usedApis := default [] (apiCalls step) in
    if (length usedApis =? 0)%nat then 0
    else clamp01
           (len (List.filter (fun api => negb (arrayIncludes (allowedApis policy) api))
                             usedApis)
            / len usedApis).
Proof. reflexivity. Qed.

Lemma live_sensitiveDataExposureRisk :
  sensitiveDataExposureRisk live
  = let stepReads := readTotal isRead (default [] (dataAccess step)) in
    if Qeq_bool stepReads 0 then 0
    else clamp01 (readTotal isSensitiveRead (default [] (dataAccess step)) / stepReads).
Proof. reflexivity. Qed.

Lemma live_dataVolumeRisk :
  dataVolumeRisk live
  = clamp01 (readTotal isRead (default [] (dataAccess step))
             / Qmax 1 (maxRecordsPerStep policy)).
Proof. reflexivity. Qed.

Lemma live_cooperativeInstabilityRisk :
  cooperativeInstabilityRisk live
  = match cooperativeSignals step with
    | Some (signal :: signals) =>
        clamp01 (sum (map (instabilityValue policy) (signal :: signals))
                 / len (map (instabilityValue policy) (signal :: signals)))
    | _ => 0
    end.
Proof. reflexivity. Qed.

(** C8. Whatever the policy: a step with no [authorityScopeUsed] has scope
    drift risk 0; a step with no [apiCalls] has API novelty risk 0; a step
    whose total read record count is 0 has sensitive data exposure risk 0
    and data volume risk 0. *)
Theorem empty_inputs_give_zero_risk :
  (authorityScopeUsed step = None \/ authorityScopeUsed step = Some [] ->
   scopeDriftRisk live == 0)
  /\ (apiCalls step = None \/ apiCalls step = Some [] ->
      apiNoveltyRisk live == 0)
  /\ (Spec.totalReads step == 0 ->
      sensitiveDataExposureRisk live == 0 /\ dataVolumeRisk live == 0).
Proof.
  split; [| split].
  - rewrite live_scopeDriftRisk. intros [E | E]; rewrite E; reflexivity.
  - rewrite live_apiNoveltyRisk. intros [E | E]; rewrite E; reflexivity.
  - rewrite <- stepReads_totalReads. intros E. split.
    + rewrite live_sensitiveDataExposureRisk. cbv zeta.
      apply Qeq_bool_iff in E. now rewrite E.
    + rewrite live_dataVolumeRisk, E. unfold Qdiv. now rewrite Qmult_0_l.
Qed.

End LiveVector.

(** ** Cooperative instability *)

Section CooperativeInstability.
Import Js AnomalyDetectionEngine.
Local Open Scope Q_scope.

Lemma clamp_unit (x : Q) : Spec.inUnit (Spec.clamp x).
Proof.
  unfold Spec.inUnit. rewrite <- clamp01_clamp. apply clamp01_bounds.
Qed.

(** The two terms of a signal's instability, as the code computes them. *)
Lemma stabilityDeficit_max (m s : Q) : (if ltb s m then m - s else 0) == Qmax 0 (m - s).
Proof.
  destruct (ltb s m) eqn:E.
  - apply ltb_true in E. symmetry. apply Q.max_r. lra.
  - apply ltb_false in E. symmetry. apply Q.max_l. lra.
Qed.

Lemma conflictExcess_max (m c : Q) :
  ~ c == 0 \/ 0 <= m ->
  (if negb (Qeq_bool c 0) && gtb c m then c - m else 0) == Qmax 0 (c - m).
Proof.
  intros H. destruct (Qeq_bool c 0) eqn:Z; simpl.
  - apply Qeq_bool_iff in Z. destruct H as [H | H]; [now destruct H |].
    symmetry. apply Q.max_l. lra.
  - destruct (gtb c m) eqn:E.
    + apply gtb_true in E. symmetry. apply Q.max_r. lra.
    + apply gtb_false in E. symmetry. apply Q.max_l. lra.
Qed.

(** A signal whose conflict score is absent or not 0, or any signal under a
    policy with a non-negative [maxCooperativeConflict], gets the value of
    the specification's formula. *)
Lemma instabilityValue_formula (policy : InProcessMonitorPolicy)
    (signal : CooperativeSignal) :
  (forall c : Q, conflictScore signal = Some c ->
                 ~ c == 0 \/ 0 <= maxCooperativeConflict policy) ->
  instabilityValue policy signal == Spec.signalInstability policy signal.
Proof.
  intros H. unfold instabilityValue, Spec.signalInstability. cbv zeta.
  rewrite <- clamp01_clamp, stabilityDeficit_max.
  destruct (conflictScore signal) as [c |]; [| reflexivity].
  rewrite conflictExcess_max by now apply H. reflexivity.
Qed.

(** Under a policy whose [maxCooperativeConflict] is not negative, the
    derived cooperative instability risk is 0 without signals and the mean
    of the specification's formula over the signals otherwise. *)
Lemma cooperativeInstabilityRisk_formula (declaredIntent : string)
    (step : ExecutionStep) (policy : InProcessMonitorPolicy) :
  0 <= maxCooperativeConflict policy ->
  cooperativeInstabilityRisk (deriveLiveBehaviorVector declaredIntent step policy)
  == Spec.cooperativeInstability step policy.
Proof.
  intros Hm. rewrite live_cooperativeInstabilityRisk.
  unfold Spec.cooperativeInstability.
  destruct (cooperativeSignals step) as [[| signal signals] |]; try reflexivity.
  set (l := signal :: signals).
  assert (E : Forall2 Qeq (map (instabilityValue policy) l)
                          (map (Spec.signalInstability policy) l)).
  { apply Forall2_fmap, Forall_Forall2_diag, Forall_forall.
    intros s _. apply instabilityValue_formula. intros c _. now right. }
  unfold Spec.mean. rewrite (sum_proper _ _ E).
  assert (L : len (map (instabilityValue policy) l)
              = len (map (Spec.signalInstability policy) l)).
  { unfold len. now rewrite !length_map. }
  rewrite L.
  assert (U : Spec.inUnit (Spec.mean (map (Spec.signalInstability policy) l))).
  { assert (FU : Forall Spec.inUnit (map (Spec.signalInstability policy) l)).
    { apply Forall_fmap, Forall_forall. intros s _. apply clamp_unit. }
    exact (mean_unit (Spec.signalInstability policy signal)
                     (map (Spec.signalInstability policy) signals) FU). }
  destruct U as [U0 U1]. now apply clamp01_id.
Qed.

(** C7, at a signal with conflict score 0 under a policy whose
    [maxCooperativeConflict] is -1/2: the guard [signal.conflictScore && ...]
    takes the score 0 for an absent one, the conflict excess is 0 and the
    derived risk is 0, where the formula of the specification gives
    max(0, 0 - (-1/2)) = 1/2. *)
Theorem cooperativeInstabilityRisk_zero_conflict_score :
  let step := {| observedIntent := None; authorityScopeUsed := None;
                 apiCalls := None; dataAccess := None;
                 cooperativeSignals :=
                   Some [ {| stabilityScore := 1; conflictScore := Some 0 |} ] |} in
  let policy := {| declaredAuthorityScope := []; allowedApis := [];
                   maxRecordsPerStep := 100; minCooperativeStability := 0;
                   maxCooperativeConflict := - (1 # 2) |} in
  cooperativeInstabilityRisk (deriveLiveBehaviorVector "" step policy) == 0
  /\ Spec.cooperativeInstability step policy == 1 # 2.
Proof. split; vm_compute; reflexivity. Qed.

End CooperativeInstability.

(** ** Token sets and intent similarity *)

Section IntentSimilarity.
Import Js AnomalyDetectionEngine.
Local Open Scope Q_scope.

Lemma arrayIncludes_true (xs : list string) (x : string) :
  arrayIncludes xs x = true <-> x ∈ xs.
Proof.
  unfold arrayIncludes. rewrite existsb_exists, list_elem_of_In. split.
  - intros (y & Hy & E). apply String.eqb_eq in E. now subst.
  - intros H. exists x. split; [exact H | apply String.eqb_refl].
Qed.

Lemma arrayIncludes_false (xs : list string) (x : string) :
  arrayIncludes xs x = false <-> x ∉ xs.
Proof.
  rewrite <- arrayIncludes_true. destruct (arrayIncludes xs x); intuition congruence.
Qed.

(** [new Set(xs)] has no duplicates and the elements of [xs]. *)
Lemma fold_setAdd (xs acc : list string) :
  NoDup acc ->
  NoDup (fold_left setAdd xs acc)
  /\ forall x : string, x ∈ fold_left setAdd xs acc <-> x ∈ acc \/ x ∈ xs.
Proof.
  revert acc. induction xs as [| y xs IH]; intros acc Hacc; simpl.
  - split; [exact Hacc |]. intros x. rewrite elem_of_nil. tauto.
  - unfold setAdd at 2 4. destruct (arrayIncludes acc y) eqn:E.
    + apply arrayIncludes_true in E. destruct (IH acc Hacc) as [N M].
      split; [exact N |]. intros x. rewrite M, elem_of_cons.
      split; [tauto |]. intros [H | [-> | H]]; tauto.
    + apply arrayIncludes_false in E.
      assert (Hacc' : NoDup (acc ++ [y])).
      { apply NoDup_app. split; [exact Hacc |]. split; [| apply NoDup_singleton].
        intros x Hx Hy. apply list_elem_of_singleton in Hy. now subst. }
      destruct (IH (acc ++ [y]) Hacc') as [N M].
      split; [exact N |]. intros x.
      rewrite M, elem_of_app, list_elem_of_singleton, elem_of_cons. tauto.
Qed.

Lemma newSet_NoDup (xs : list string) : NoDup (newSet xs).
Proof. apply fold_setAdd, NoDup_nil_2. Qed.

Lemma elem_of_newSet (xs : list string) (x : string) : x ∈ newSet xs <-> x ∈ xs.
Proof.
  unfold newSet. destruct (fold_setAdd xs [] (NoDup_nil_2 (A:=string))) as [_ M].
  rewrite M, elem_of_nil. tauto.
Qed.

Lemma tokenArray_tokenSet (text : string) :
  list_to_set (tokenArray text) = Spec.tokenSet text.
Proof.
  apply set_eq. intros x. unfold tokenArray, Spec.tokenSet.
  rewrite !elem_of_list_to_set, elem_of_newSet, list_elem_of_filter.
  rewrite list_elem_of_In, filter_In, <- list_elem_of_In.
  unfold longToken. rewrite Nat.ltb_lt. tauto.
Qed.

Lemma tokenArray_size (text : string) :
  setSize (tokenArray text) = size (Spec.tokenSet text).
Proof.
  rewrite <- tokenArray_tokenSet, size_list_to_set; [reflexivity |].
  apply newSet_NoDup.
Qed.

Lemma tokenArray_empty (text : string) :
  (setSize (tokenArray text) =? 0)%nat = true <-> Spec.tokenSet text = ∅.
Proof.
  rewrite Nat.eqb_eq, tokenArray_size, size_empty_iff. apply leibniz_equiv_iff.
Qed.

(** The loop [observedTokens.forEach(...)] counts the observed tokens that
    the declared set has. *)
Lemma overlap_count (declaredTokens observedTokens : list string) (a : Q) :
  fold_left (fun overlap token =>
               if setHas declaredTokens token then overlap + 1 else overlap)
            observedTokens a
  == a + inject_Z (Z.of_nat (length (List.filter (setHas declaredTokens) observedTokens))).
Proof.
  revert a. induction observedTokens as [| t ts IH]; intros a; simpl.
  - change (inject_Z 0) with 0. ring.
  - destruct (setHas declaredTokens t); rewrite IH.
    + cbn [length]. rewrite Nat2Z.inj_succ, <- Z.add_1_l, inject_Z_plus.
      change (inject_Z 1) with 1. ring.
    + reflexivity.
Qed.

(** Counting the observed tokens found among the declared ones, as the code
    does, or the declared tokens found among the observed ones, as the
    specification says, gives the same number: the size of the
    intersection. *)
Lemma overlap_symmetric (observed declared : string) :
  length (List.filter (setHas (tokenArray declared)) (tokenArray observed))
  = size (filter (fun token => token ∈ Spec.tokenSet observed) (Spec.tokenSet declared)).
Proof.
  rewrite <- (size_list_to_set (C:=gset string)).
  - f_equal. apply set_eq. intros x.
    rewrite elem_of_list_to_set, elem_of_filter, list_elem_of_In, filter_In.
    rewrite <- list_elem_of_In. unfold setHas. rewrite arrayIncludes_true.
    rewrite <- !tokenArray_tokenSet, !elem_of_list_to_set. tauto.
  - apply NoDup_ListNoDup, List.NoDup_filter, NoDup_ListNoDup, newSet_NoDup.
Qed.

Lemma intentSimilarity_similarity (observed declared : string) :
  intentSimilarity observed declared == Spec.similarity observed declared.
Proof.
  unfold intentSimilarity, Spec.similarity. cbv zeta.
  destruct (setSize (tokenArray observed) =? 0)%nat eqn:EO.
  - apply tokenArray_empty in EO. rewrite decide_True by now left. reflexivity.
  - destruct (setSize (tokenArray declared) =? 0)%nat eqn:ED; simpl.
    + apply tokenArray_empty in ED. rewrite decide_True by now right. reflexivity.
    + rewrite decide_False.
      * rewrite overlap_count, overlap_symmetric, tokenArray_size.
        now rewrite Qplus_0_l.
      * intros [H | H]; apply tokenArray_empty in H; congruence.
Qed.

End IntentSimilarity.

(** ** Intent deviation *)

Section IntentDeviation.
Import Js AnomalyDetectionEngine.
Local Open Scope Q_scope.

Lemma prefix_append (word text : string) :
  String.prefix word text = true <-> exists after : string, text = (word ++ after)%string.
Proof.
  revert text. induction word as [| a word IH]; intros text.
  - split; [intros _; now exists text | intros _; now destruct text].
  - destruct text as [| b text]; simpl.
    + split; [discriminate | intros [after H]; discriminate].
    + destruct (ascii_dec a b) as [-> | N].
      * rewrite IH. split; intros [after H]; exists after.
        -- simpl. now rewrite H.
        -- simpl in H. now inversion H.
      * split; [discriminate | intros [after H]]. simpl in H.
        inversion H. congruence.
Qed.

Lemma includes_substring (text word : string) :
  includes text word = true <-> Spec.substring word text.
Proof.
  unfold Spec.substring. induction text as [| c text IH]; cbn [includes].
  - rewrite orb_false_r, prefix_append. split.
    + intros [after H]. now exists EmptyString, after.
    + intros (before & after & H). destruct before; [now exists after | discriminate].
  - rewrite orb_true_iff, prefix_append, IH. split.
    + intros [[after H] | (before & after & H)].
      * now exists EmptyString, after.
      * exists (String c before), after. rewrite H. reflexivity.
    + intros (before & after & H). destruct before as [| c' before]; simpl in H.
      * left. now exists after.
      * right. exists before, after. now inversion H.
Qed.

Lemma highImpact_substring (text : string) :
  existsb (fun word => includes text word) highImpactIntentWords = true
  <-> exists word : string, word ∈ Spec.highImpactVerbs /\ Spec.substring word text.
Proof.
  rewrite existsb_exists. split.
  - intros (word & Hw & Hi). exists word.
    split; [now apply list_elem_of_In | now apply includes_substring].
  - intros (word & Hw & Hi). exists word.
    split; [now apply list_elem_of_In | now apply includes_substring].
Qed.

Lemma toLowerCase_empty (s : string) : toLowerCase s = EmptyString <-> s = EmptyString.
Proof. destruct s; simpl; split; congruence. Qed.

Lemma live_intentDeviationRisk (declaredIntent : string) (step : ExecutionStep)
    (policy : InProcessMonitorPolicy) :
  intentDeviationRisk (deriveLiveBehaviorVector declaredIntent step policy)
  = let observed := toLowerCase (default EmptyString (observedIntent step)) in
    let declared := toLowerCase declaredIntent in
    clamp01
      (if String.eqb observed EmptyString then 0
       else if geb (intentSimilarity observed declared) (1 # 4) then 0
       else if existsb (fun word => includes observed word) highImpactIntentWords
            then 1 else 65 # 100).
Proof. reflexivity. Qed.

Lemma geb_similarity (observed declared : string) :
  geb (intentSimilarity observed declared) (1 # 4) = true
  <-> 1 # 4 <= Spec.similarity observed declared.
Proof. now rewrite geb_true, intentSimilarity_similarity. Qed.

(** C6. The similarity that the code computes is the specification's: the
    count of declared tokens longer than 3 characters also present among the
    observed tokens longer than 3 characters, divided by the count of such
    declared tokens, and 0 when either token set is empty.  With both
    intents in lower case, the derived intent deviation risk is 0 when the
    observed intent is empty; else 0 when the similarity is at least 0.25;
    else 1 when one of delete, drop, exfiltrate, disable, override, shutdown
    is a substring of the observed intent; else 0.65. *)
Theorem intentDeviationRisk_spec (declaredIntent : string) (step : ExecutionStep)
    (policy : InProcessMonitorPolicy) :
  let observedText := default EmptyString (observedIntent step) in
  let observed := toLowerCase observedText in
  let declared := toLowerCase declaredIntent in
  let risk := intentDeviationRisk (deriveLiveBehaviorVector declaredIntent step policy) in
  let highImpact :=
    exists word : string, word ∈ Spec.highImpactVerbs /\ Spec.substring word observed in
  intentSimilarity observed declared == Spec.similarity observed declared
  /\ (observedText = EmptyString -> risk == 0)
  /\ (observedText <> EmptyString ->
      1 # 4 <= Spec.similarity observed declared -> risk == 0)
  /\ (observedText <> EmptyString ->
      ~ 1 # 4 <= Spec.similarity observed declared -> highImpact -> risk == 1)
  /\ (observedText <> EmptyString ->
      ~ 1 # 4 <= Spec.similarity observed declared -> ~ highImpact ->
      risk == 65 # 100).
Proof.
  intros observedText observed declared risk highImpact.
  assert (R : risk
              = clamp01
                  (if String.eqb observed EmptyString then 0
                   else if geb (intentSimilarity observed declared) (1 # 4) then 0
                   else if existsb (fun word => includes observed word)
                                   highImpactIntentWords
                        then 1 else 65 # 100))
    by apply live_intentDeviationRisk.
  assert (NE : observedText <> EmptyString -> String.eqb observed EmptyString = false).
  { intros H. apply String.eqb_neq. unfold observed. now rewrite toLowerCase_empty. }
  split; [apply intentSimilarity_similarity |].
  split; [| split; [| split]].
  - intros E. rewrite R. unfold observed. rewrite E. reflexivity.
  - intros N S. rewrite R, (NE N).
    apply geb_similarity in S. rewrite S. reflexivity.
  - intros N S V. rewrite R, (NE N).
    destruct (geb (intentSimilarity observed declared) (1 # 4)) eqn:G.
    + now apply geb_similarity in G.
    + apply highImpact_substring in V. rewrite V. reflexivity.
  - intros N S V. rewrite R, (NE N).
    destruct (geb (intentSimilarity observed declared) (1 # 4)) eqn:G.
    + now apply geb_similarity in G.
    + destruct (existsb (fun word => includes observed word) highImpactIntentWords) eqn:X.
      * now apply highImpact_substring in X.
      * reflexivity.
Qed.

End IntentDeviation.

(** ** Running computations *)

Section Running.

Implicit Types (w : World) (context : ref) (c : ActionContext).

Lemma run_ret {A B : Type} (a : A) (k : A -> M B) w : (mret a ≫= k) w = k a w.
Proof. reflexivity. Qed.

Lemma run_assoc {A B C : Type} (m : M C) (f : C -> M A) (k : A -> M B) w :
  ((m ≫= f) ≫= k) w = (m ≫= fun x => f x ≫= k) w.
Proof.
  unfold mbind, M_bind. destruct (m w) as [w' [x | e]]; reflexivity.
Qed.

Lemma run_update {B : Type} (f : World -> World) (k : unit -> M B) w :
  (update f ≫= k) w = k tt (f w).
Proof. reflexivity. Qed.

Lemma run_emit {B : Type} (e : Event) (k : unit -> M B) w :
  (emit e ≫= k) w = k tt (set_published (fun es => es ++ [e]) w).
Proof. reflexivity. Qed.

Lemma run_getClock {B : Type} (k : N -> M B) w : (getClock ≫= k) w = k (clock w) w.
Proof. reflexivity. Qed.

Lemma run_read {B : Type} (k : ActionContext -> M B) w context c :
  store w !! context = Some c -> (read context ≫= k) w = k c w.
Proof. intros H. unfold mbind, M_bind, read. now rewrite H. Qed.

Lemma run_read_dangling {B : Type} (k : ActionContext -> M B) w context :
  store w !! context = None -> (read context ≫= k) w = (w, Thrown typeError).
Proof. intros H. unfold mbind, M_bind, read. now rewrite H. Qed.

Lemma run_assign {B : Type} (f : ActionContext -> ActionContext) (k : unit -> M B) w context c :
  store w !! context = Some c ->
  (assign context f ≫= k) w = k tt (set_store <[context := f c]> w).
Proof.
  intros H. unfold assign. rewrite run_assoc, (run_read _ _ _ _ H). reflexivity.
Qed.

Lemma run_returned {A B : Type} (m : M A) (k : A -> M B) w w' (a : A) :
  m w = (w', Returned a) -> (m ≫= k) w = k a w'.
Proof. intros H. unfold mbind, M_bind. now rewrite H. Qed.

Lemma run_async {B : Type} (body : M unit) (k : unit -> M B) w :
  (async body ≫= k) w = k tt (body w).1.
Proof. reflexivity. Qed.

Lemma set_store_insert_insert (context : ref) (x y : ActionContext) (w : World) :
  set_store <[context := x]> (set_store <[context := y]> w)
  = set_store <[context := x]> w.
Proof. unfold set_store. cbn. now rewrite insert_insert_eq. Qed.

End Running.

(** One step of a computation whose next action is known. *)
Ltac lookup_now :=
  cbn [store activeActions published clock set_store set_published
       set_activeActions];
  first [ eassumption | apply lookup_insert_eq ].

Ltac run_step :=
  first
    [ rewrite run_assoc
    | rewrite run_ret
    | rewrite run_emit
    | rewrite run_update
    | rewrite run_getClock
    | erewrite run_read by lookup_now
    | erewrite run_assign by lookup_now ].

Ltac run := repeat run_step.

(** ** The post-execution audit *)

Section PostExecution.
Import PostExecutionLayer.

Variable this : PostExecutionLayer.t.

Implicit Types (w : World) (context : ref) (c : ActionContext).

Lemma hasCriticalViolation_true (vs : list Violation) :
  existsb isCritical vs = true
  <-> exists v : Violation, v ∈ vs /\ severity v = CRITICAL.
Proof.
  rewrite existsb_exists. unfold isCritical.
  split; intros (v & Hv & Hs); exists v.
  - split; [now apply list_elem_of_In | now apply bool_decide_eq_true in Hs].
  - split; [now apply list_elem_of_In | now apply bool_decide_eq_true].
Qed.

(** Remediation publishes its two events and leaves the rest of the state
    as it is: the report that the engine returns is dropped. *)
Lemma triggerRemediation_run {B : Type} (k : unit -> M B) w context c :
  store w !! context = Some c ->
  (triggerRemediation this context ≫= k) w
  = k tt (set_published
            (fun es => es ++ [REMEDIATION_COMPLETED context])
            (set_published (fun es => es ++ [REMEDIATION_TRIGGERED context]) w)).
Proof.
  intros H. unfold triggerRemediation, RemediationEngine.remediate. now run.
Qed.

(** The delivery of a violation that the context holds to handlers that
    stand by. *)
Lemma deliver_bystanders (handlers : list (string -> Violation -> M unit))
    (action : string) (violation : Violation) context :
  Forall (fun handler => Spec.standsBy handler context) handlers ->
  forall w c,
    store w !! context = Some c ->
    violation ∈ violations c ->
    exists (w' : World) (c' : ActionContext) (reactions : list Event),
      deliver handlers action violation w = (w', Returned tt)
      /\ store w' !! context = Some c'
      /\ status c' = status c
      /\ violations c' = violations c
      /\ published w' = published w ++ reactions.
Proof.
  induction 1 as [| handler rest Hh _ IH]; intros w c S V.
  - exists w, c, []. rewrite app_nil_r. now repeat split.
  - destruct (Hh action violation w c S V) as (w1 & c1 & r1 & R1 & S1 & St1 & V1 & P1).
    assert (V' : violation ∈ violations c1) by now rewrite V1.
    destruct (IH w1 c1 S1 V') as (w2 & c2 & r2 & R2 & S2 & St2 & V2 & P2).
    exists w2, c2, (r1 ++ r2). cbn [deliver].
    rewrite (run_returned _ _ _ _ _ R1).
    split; [exact R2 |]. split; [exact S2 |].
    split; [congruence |]. split; [congruence |].
    rewrite P2, P1. now rewrite app_assoc.
Qed.

(** The audit that fails, up to the delivery of its violation: the context
    is marked, the violation is published and delivered, and what follows
    the delivery is remediation and the closing event. *)
Lemma process_failing w context c :
  store w !! context = Some c ->
  existsb isCritical (violations c)
  || Js.truthy (params c !! "invalidResult"%string) = true ->
  let v := auditViolation (clock w) (params c !! "invalidResult"%string) in
  process this context w
  = (deliver (violationHandlers (eventBus this)) (actionId c) v ≫= fun _ =>
     triggerRemediation this context;;
     emit (AUDIT_COMPLETED context);;
     mret context)
      (set_published
         (fun es => es ++ [AUDIT_STARTED context; VIOLATION_DETECTED (actionId c) v])
         (set_store <[context := set_status AUDIT_FAILED (push_violation v c)]> w)).
Proof.
  intros H Hb v. unfold process.
  run. rewrite Hb. run. unfold emitViolation. run.
  f_equal. unfold set_published, set_store.
  cbn [store activeActions published clock].
  now rewrite !insert_insert_eq, <- !app_assoc.
Qed.

(** The audit that fails, with handlers that stand by. *)
Lemma process_failed w context c :
  store w !! context = Some c ->
  existsb isCritical (violations c)
  || Js.truthy (params c !! "invalidResult"%string) = true ->
  Spec.bystanders (eventBus this) context ->
  let v := auditViolation (clock w) (params c !! "invalidResult"%string) in
  exists (w' : World) (c' : ActionContext) (reactions : list Event),
    process this context w = (w', Returned context)
    /\ store w' !! context = Some c'
    /\ status c' = AUDIT_FAILED
    /\ violations c' = violations c ++ [v]
    /\ published w'
       = published w
         ++ [AUDIT_STARTED context; VIOLATION_DETECTED (actionId c) v]
         ++ reactions
         ++ [REMEDIATION_TRIGGERED context; REMEDIATION_COMPLETED context;
             AUDIT_COMPLETED context].
Proof.
  intros H Hb Hby v. rewrite (process_failing w context c H Hb). fold v.
  set (audited := set_status AUDIT_FAILED (push_violation v c)).
  set (w1 := set_published _ _).
  assert (S1 : store w1 !! context = Some audited) by (cbn; apply lookup_insert_eq).
  assert (V1 : v ∈ violations audited).
  { cbn. apply elem_of_app. right. now apply list_elem_of_singleton. }
  destruct (deliver_bystanders _ (actionId c) v context Hby w1 audited S1 V1)
    as (w2 & c2 & reactions & R2 & S2 & St2 & V2 & P2).
  rewrite (run_returned _ _ _ _ _ R2).
  erewrite triggerRemediation_run by exact S2. run.
  eexists _, c2, reactions. split; [reflexivity |].
  cbn [store activeActions published clock set_store set_published].
  split; [exact S2 |]. split; [exact St2 |]. split; [exact V2 |].
  rewrite P2. cbn. now rewrite <- !app_assoc.
Qed.

(** The audit that passes: nothing is delivered. *)
Lemma process_passed w context c :
  store w !! context = Some c ->
  existsb isCritical (violations c)
  || Js.truthy (params c !! "invalidResult"%string) = false ->
  exists w' : World,
    process this context w = (w', Returned context)
    /\ store w' = <[context := set_status AUDIT_PASSED c]> (store w)
    /\ activeActions w' = activeActions w
    /\ clock w' = clock w
    /\ published w'
       = published w ++ [AUDIT_STARTED context; AUDIT_COMPLETED context].
Proof.
  intros H Hb. unfold process.
  run. rewrite Hb. run.
  eexists. split; [reflexivity |].
  cbn [store activeActions published clock set_store set_published].
  rewrite <- !app_assoc. now repeat split.
Qed.




End PostExecution.

(** ** Action identifiers *)

Section ActionIds.
Import GuardrailOrchestrator.

Lemma to_uint_nonnil (n : N) : N.to_uint n <> Decimal.Nil.
Proof.
  destruct n as [| p]; [discriminate |]. apply DecimalPos.Unsigned.to_uint_nonnil.
Qed.

Lemma decimal_inj (n m : N) : Js.decimal n = Js.decimal m -> n = m.
Proof.
  unfold Js.decimal. intros E.
  apply DecimalN.Unsigned.to_uint_inj.
  pose proof (NilZero.usu (N.to_uint n) (to_uint_nonnil n)) as Hn.
  pose proof (NilZero.usu (N.to_uint m) (to_uint_nonnil m)) as Hm.
  rewrite E in Hn. congruence.
Qed.

(** Two clock readings give the same action identifier only if they are
    the same reading. *)
Lemma newActionId_inj (n m : N) : newActionId n = newActionId m -> n = m.
Proof.
  unfold newActionId. intros E. apply decimal_inj.
  inversion E as [D]. exact D.
Qed.

Lemma propose_run (agentId intent : string) (params : gmap string Js.value)
    (w : World) :
  propose agentId intent params w
  = ({| store := <[fresh (dom (store w)) :=
                     newContext agentId intent params (clock w)]> (store w);
        activeActions :=
          <[newActionId (clock w) := fresh (dom (store w))]> (activeActions w);
        published := published w ++ [ACTION_PROPOSED (fresh (dom (store w)))];
        clock := clock w |},
     Returned (newActionId (clock w), fresh (dom (store w)))).
Proof. reflexivity. Qed.

(** C5, as the code has it.  A call to [coordinate] at clock reading [t]
    creates a new context object and registers it under the identifier
    "act-" followed by [t] in decimal.  That identifier differs from the one
    of every call made at another clock reading, whose entry in the active
    set the registration leaves as it is; a call made at the same reading
    gets the same identifier, and its registration takes the entry over. *)
Theorem actionId_is_clock_reading (agentId intent : string)
    (params : gmap string Js.value) (w : World) :
  exists (w1 : World) (context : ref),
    propose agentId intent params w
    = (w1, Returned (newActionId (clock w), context))
    /\ store w !! context = None
    /\ (actionId <$> store w1 !! context) = Some (newActionId (clock w))
    /\ activeActions w1 !! newActionId (clock w) = Some context
    /\ (forall t : N,
          newActionId t = newActionId (clock w) <-> t = clock w)
    /\ (forall t : N,
          t <> clock w ->
          activeActions w1 !! newActionId t = activeActions w !! newActionId t).
Proof.
  eexists _, _. split; [apply propose_run |]. cbn [store activeActions].
  split; [apply not_elem_of_dom, is_fresh |].
  split; [now rewrite lookup_insert_eq |].
  split; [apply lookup_insert_eq |].
  split.
  - intros t. split; [apply newActionId_inj | now intros ->].
  - intros t Ht. apply lookup_insert_ne. intros E.
    apply newActionId_inj in E. congruence.
Qed.

(** C5, as the specification has it, fails: two calls that read the same
    clock value get the same identifier.  The second registration replaces
    the entry of the first while the first action is still in flight: two
    live contexts carry the identifier and the active set has one entry. *)
Lemma same_reading_same_actionId :
  let w0 := {| store := ∅; activeActions := ∅; published := [];
               clock := 1700000000000 |} in
  exists (w1 w2 : World) (action : string) (first second : ref),
    GuardrailOrchestrator.propose "agent-a" "export report" ∅ w0
    = (w1, Returned (action, first))
    /\ GuardrailOrchestrator.propose "agent-b" "rotate keys" ∅ w1
       = (w2, Returned (action, second))
    /\ first <> second
    /\ activeActions w1 !! action = Some first
    /\ activeActions w2 !! action = Some second
    /\ (actionId <$> store w2 !! first) = Some action
    /\ (actionId <$> store w2 !! second) = Some action
    /\ size (activeActions w2) = 1%nat.
Proof.
  intros w0.
  pose (w1 := (propose "agent-a" "export report" ∅ w0).1).
  exists w1, (propose "agent-b" "rotate keys" ∅ w1).1,
         (newActionId (clock w0)),
         (fresh (dom (store w0))), (fresh (dom (store w1))).
  vm_compute. repeat split; congruence.
Qed.

End ActionIds.

(** ** Coordination *)

Section Coordination.
Import GuardrailOrchestrator.

Variable timer : World -> World.
Variable this : GuardrailOrchestrator.t.
Variables (agentId intent : string) (params : gmap string Js.value).

Implicit Types (w : World) (context : ref) (c : ActionContext).

(** [coordinate] is the pipeline run on the proposed context, followed on
    every outcome by the removal of the action's entry. *)
Lemma coordinate_run w :
  coordinate timer this agentId intent params w
  = let '(w', outcome) :=
      pipeline timer this (fresh (dom (store w)))
               (propose agentId intent params w).1 in
    (set_activeActions (delete (newActionId (clock w))) w', outcome).
Proof. reflexivity. Qed.

(** C4. The call registers its context under its action identifier, and
    whatever the stages do -- pre-execution failure, suspension, completion
    through post-execution, or an error thrown by a stage -- the state in
    which [coordinate] resolves has no entry for that identifier. *)
Theorem coordinate_removes_active_entry w :
  let action := newActionId (clock w) in
  (exists context : ref,
      (propose agentId intent params w).2 = Returned (action, context)
      /\ activeActions (propose agentId intent params w).1 !! action = Some context)
  /\ activeActions (coordinate timer this agentId intent params w).1 !! action = None.
Proof.
  intros action. split.
  - exists (fresh (dom (store w))). rewrite propose_run. cbn.
    split; [reflexivity | apply lookup_insert_eq].
  - rewrite coordinate_run.
    destruct (pipeline timer this (fresh (dom (store w)))
                       (propose agentId intent params w).1) as [w' outcome].
    cbn. apply lookup_delete_eq.
Qed.

(** The exit paths of the pipeline. *)
Lemma pipeline_pre_execution_throws w context w2 (e : Js.value) :
  process (preExecution this) context w = (w2, Thrown e) ->
  pipeline timer this context w = (w2, Thrown e).
Proof. intros H. unfold pipeline, mbind, M_bind. now rewrite H. Qed.

Lemma pipeline_pre_execution_failed w context w2 context2 c2 :
  process (preExecution this) context w = (w2, Returned context2) ->
  store w2 !! context2 = Some c2 ->
  status c2 = PRE_EXECUTION_FAILED ->
  pipeline timer this context w = (w2, Returned context2).
Proof.
  intros H S F. unfold pipeline. unfold mbind at 1, M_bind at 1. rewrite H.
  erewrite run_read by eassumption. now rewrite decide_True.
Qed.

Lemma pipeline_suspended w context w2 context2 c2 w3 context3 c3 :
  process (preExecution this) context w = (w2, Returned context2) ->
  store w2 !! context2 = Some c2 ->
  status c2 <> PRE_EXECUTION_FAILED ->
  process (inProcess this) context2 w2 = (w3, Returned context3) ->
  store w3 !! context3 = Some c3 ->
  status c3 = SUSPENDED ->
  pipeline timer this context w
  = (set_store <[context3 := set_endTime (Some (clock w3)) c3]> w3, Returned context3).
Proof.
  intros H S F H' S' F'. unfold pipeline. unfold mbind at 1, M_bind at 1. rewrite H.
  erewrite run_read by eassumption. rewrite decide_False by exact F.
  unfold mbind at 1, M_bind at 1. rewrite H'.
  erewrite run_read by eassumption. rewrite decide_True by exact F'.
  now run.
Qed.

Lemma pipeline_completed w context w2 context2 c2 w3 context3 c3 c4 :
  process (preExecution this) context w = (w2, Returned context2) ->
  store w2 !! context2 = Some c2 ->
  status c2 <> PRE_EXECUTION_FAILED ->
  process (inProcess this) context2 w2 = (w3, Returned context3) ->
  store w3 !! context3 = Some c3 ->
  status c3 <> SUSPENDED ->
  store (timer w3) !! context3 = Some c4 ->
  pipeline timer this context w
  = process (postExecution this) context3
      (set_published
         (fun es => es ++ [ACTION_COMPLETED context3])
         (set_store
            <[context3 := set_status COMPLETED
                            (set_endTime (Some (clock (timer w3))) c4)]>
            (timer w3))).
Proof.
  intros H S F H' S' F' T. unfold pipeline. unfold mbind at 1, M_bind at 1. rewrite H.
  erewrite run_read by eassumption. rewrite decide_False by exact F.
  unfold mbind at 1, M_bind at 1. rewrite H'.
  erewrite run_read by eassumption. rewrite decide_False by exact F'.
  run. rewrite set_store_insert_insert.
  unfold mbind, M_bind.
  destruct (process (postExecution this) context3 _) as [w5 [l |e]]; reflexivity.
Qed.

(** C10. When the pre-execution stage returns a context in state
    PRE_EXECUTION_FAILED, [coordinate] returns that context as the stage
    left it: no later stage runs, nothing more is published and no end time
    is stamped.  A pre-execution stage that leaves the two time stamps of
    the proposed context alone thus yields a result with the start time of
    the call and no end time. *)
Theorem pre_execution_failure_keeps_endTime_unset w w2 context2 c2 :
  let proposed := newContext agentId intent params (clock w) in
  process (preExecution this) (fresh (dom (store w)))
          (propose agentId intent params w).1
  = (w2, Returned context2) ->
  store w2 !! context2 = Some c2 ->
  status c2 = PRE_EXECUTION_FAILED ->
  exists w' : World,
    coordinate timer this agentId intent params w = (w', Returned context2)
    /\ store w' = store w2
    /\ published w' = published w2
    /\ store w' !! context2 = Some c2
    /\ endTime proposed = None
    /\ (startTime c2 = startTime proposed -> endTime c2 = endTime proposed ->
        startTime c2 = clock w /\ endTime c2 = None).
Proof.
  intros proposed H S F. rewrite coordinate_run.
  rewrite (pipeline_pre_execution_failed _ _ _ _ _ H S F).
  eexists. split; [reflexivity |]. cbn.
  repeat split; try assumption; congruence.
Qed.

End Coordination.

(** ** The violation handler *)

Section ViolationHandler.
Import GuardrailOrchestrator.

Variable this : GuardrailOrchestrator.t.

Implicit Types (w : World) (context : ref) (c : ActionContext).

Lemma find_id_some (ident : string) (vs : list Violation) :
  is_Some (List.find (fun v => String.eqb (id v) ident) vs) <-> Spec.hasId ident vs.
Proof.
  unfold Spec.hasId. split.
  - intros [v Hv]. apply find_some in Hv. destruct Hv as [Hin He].
    exists v. split; [now apply list_elem_of_In | now apply String.eqb_eq].
  - intros (v & Hin & He).
    destruct (List.find (fun v => String.eqb (id v) ident) vs) as [v' |] eqn:F.
    + now exists v'.
    + apply list_elem_of_In in Hin.
      pose proof (find_none _ _ F v Hin) as N. cbv beta in N.
      apply String.eqb_neq in N. congruence.
Qed.

(** Appending a violation whose identifier is not present keeps the
    identifiers distinct. *)
Lemma push_keeps_ids_distinct (violation : Violation) (vs : list Violation) :
  ~ Spec.hasId (id violation) vs ->
  NoDup (id <$> vs) -> NoDup (id <$> (vs ++ [violation])).
Proof.
  intros N D. rewrite fmap_app. apply NoDup_app.
  split; [exact D |]. split; [| apply NoDup_singleton].
  intros x Hx Hy. apply list_elem_of_singleton in Hy. subst x.
  apply list_elem_of_fmap in Hx. destruct Hx as (v & E & Hv).
  apply N. now exists v.
Qed.

(** C9. A violation event for an action that is not in the active set
    leaves the state as it is.  For an action in the active set, the
    violation is appended to the violations of its context exactly when no
    violation with the same identifier is there, so that identifiers that
    were distinct stay distinct; the intervention layer then runs on that
    same context object, in the state so obtained, and the handler returns
    when it has. *)
Theorem violation_handler_spec (action : string) (violation : Violation) w :
  (activeActions w !! action = None ->
   onViolationDetected this action violation w = (w, Returned tt))
  /\ (forall context c,
        activeActions w !! action = Some context ->
        store w !! context = Some c ->
        exists (c' : ActionContext) (w1 : World),
          (Spec.hasId (id violation) (violations c) ->
           violations c' = violations c /\ w1 = w)
          /\ (~ Spec.hasId (id violation) (violations c) ->
              violations c' = violations c ++ [violation]
              /\ w1 = set_store <[context := c']> w)
          /\ store w1 !! context = Some c'
          /\ (NoDup (id <$> violations c) -> NoDup (id <$> violations c'))
          /\ onViolationDetected this action violation w
             = (process (interventionLayer this) context ≫= fun _ => mret tt) w1).
Proof.
  split.
  - intros H. unfold onViolationDetected, violationHandler, getActive, mbind, M_bind.
    now rewrite H.
  - intros context c H S.
    assert (R : onViolationDetected this action violation w
                = (c0 ← read context;
                   match List.find (fun v => String.eqb (id v) (id violation))
                                   (violations c0) with
                   | Some _ => mret tt
                   | None => assign context (push_violation violation)
                   end;;
                   _ ← process (interventionLayer this) context;
                   mret tt) w).
    { unfold onViolationDetected, violationHandler, getActive. unfold mbind at 1, M_bind at 1.
      now rewrite H. }
    rewrite R. erewrite run_read by eassumption.
    pose proof (find_id_some (id violation) (violations c)) as F.
    destruct (List.find (fun v => String.eqb (id v) (id violation)) (violations c))
      as [v |].
    + assert (P : Spec.hasId (id violation) (violations c)) by (apply F; eauto).
      exists c, w. rewrite run_ret.
      split; [tauto |]. split; [tauto |]. split; [exact S |]. split; [tauto |].
      reflexivity.
    + assert (P : ~ Spec.hasId (id violation) (violations c)).
      { intros P. apply F in P. now destruct P. }
      exists (push_violation violation c),
             (set_store <[context := push_violation violation c]> w).
      erewrite run_assign by eassumption.
      split; [tauto |]. split; [now split |].
      split; [cbn; apply lookup_insert_eq |].
      split; [now apply push_keeps_ids_distinct | reflexivity].
Qed.

End ViolationHandler.

(** ** The handler as the bus runs it *)

Section RegisteredHandler.
Import GuardrailOrchestrator.

Implicit Types (w : World) (context : ref) (c : ActionContext).

Lemma run_discard {A : Type} (m : M A) w : ((m ≫= fun _ => mret tt) w).1 = (m w).1.
Proof. unfold mbind, M_bind. now destruct (m w) as [w' [a | e]]. Qed.

(** The state in which the handler leaves the process. *)
Lemma violationHandler_state (intervention : Layer) (action : string)
    (violation : Violation) w :
  (violationHandler intervention action violation w).1
  = match activeActions w !! action with
    | None => w
    | Some target =>
        match store w !! target with
        | None => w
        | Some ct =>
            (process intervention target
               (match List.find (fun v => String.eqb (id v) (id violation))
                                (violations ct) with
                | Some _ => w
                | None => set_store <[target := push_violation violation ct]> w
                end)).1
        end
    end.
Proof.
  unfold violationHandler, getActive. unfold mbind at 1, M_bind at 1.
  destruct (activeActions w !! action) as [target |]; [| reflexivity].
  destruct (store w !! target) as [ct |] eqn:T.
  - erewrite run_read by exact T.
    destruct (List.find (fun v => String.eqb (id v) (id violation)) (violations ct)).
    + now rewrite run_ret, run_discard.
    + erewrite run_assign by exact T. now rewrite run_discard.
  - now rewrite run_read_dangling by exact T.
Qed.

(** With an intervention layer that keeps the status and the violations of
    a context, the handler that the orchestrator registers stands by the
    audit of that context: it finds the delivered violation there, or it is
    at work on another context. *)
Lemma setupEventHandlers_bystanders (intervention : Layer) context :
  Spec.keepsAudit intervention context ->
  Spec.bystanders (setupEventHandlers intervention) context.
Proof.
  intros K. unfold Spec.bystanders, setupEventHandlers. cbn [violationHandlers].
  constructor; [| constructor].
  intros action violation w c S V.
  assert (G : exists (c' : ActionContext) (reactions : list Event),
             store (violationHandler intervention action violation w).1 !! context
             = Some c'
             /\ status c' = status c
             /\ violations c' = violations c
             /\ published (violationHandler intervention action violation w).1
                = published w ++ reactions).
  { rewrite violationHandler_state.
    destruct (activeActions w !! action) as [target |].
    - destruct (store w !! target) as [ct |] eqn:T.
      + destruct (List.find (fun v => String.eqb (id v) (id violation)) (violations ct))
          as [v |] eqn:F.
        * now apply K.
        * assert (N : target <> context).
          { intros ->. rewrite S in T. inversion T; subst ct.
            assert (P : is_Some (List.find (fun v => String.eqb (id v) (id violation))
                                           (violations c))).
            { apply find_id_some. now exists violation. }
            rewrite F in P. now destruct P. }
          apply (K target (set_store <[target := push_violation violation ct]> w) c).
          cbn. now rewrite lookup_insert_ne.
      + exists c, []. now rewrite app_nil_r.
    - exists c, []. now rewrite app_nil_r. }
  destruct G as (c' & reactions & G).
  eexists _, c', reactions. split; [reflexivity | exact G].
Qed.

End RegisteredHandler.

(** * The properties at the sample inputs *)

Section Instances.
Import Js AnomalyDetectionEngine.
Local Open Scope Q_scope.

(** Scenarios 1 and 4: the default predicted vector against itself gives
    the score 0 and no action; the idle step gives the all-zero live
    vector. *)
Example scenario_identical_vectors :
  let decision :=
    evaluate (create None None) (Some Sample.noveltyOnly) "generate report"
             Sample.idleStep Sample.policy in
  computeDeviationScore defaultPredictedVector defaultPredictedVector == 0
  /\ resolveAction (create None None) 0 = (NONE, None)
  /\ live decision
     = {| intentDeviationRisk := 0; scopeDriftRisk := 0; apiNoveltyRisk := 0;
          sensitiveDataExposureRisk := 0; cooperativeInstabilityRisk := 0;
          dataVolumeRisk := 0 |}.
Proof. vm_compute. repeat split. Qed.

(** Scenario 2, evaluated: the score is 17/120 and no action is taken. *)
Example scenario_saturated_novelty :
  computeDeviationScore defaultPredictedVector Sample.noveltyOnly == 17 # 120
  /\ fst (resolveAction (create None None) (17 # 120)) = NONE.
Proof. vm_compute. repeat split. Qed.

(** A score equal to a threshold is in that threshold's tier. *)
Example threshold_is_inclusive :
  resolveAction (create None None) (4 # 5) = (HALT, Some (4 # 5))
  /\ resolveAction (create None None) (1 # 4) = (WARN, Some (1 # 4))
  /\ resolveAction (create None None) (24 # 100) = (NONE, None).
Proof. vm_compute. repeat split. Qed.

(** The four exits of [coordinate], run: a rejected action, a completed
    one, and stages that suspend or throw. *)
Example coordinate_exits :
  let suspending :=
    Build_Layer "InProcess"
      (fun context => assign context (set_status SUSPENDED);; mret context) in
  let throwing := Build_Layer "InProcess" (fun _ => throw (Js.VStr "boom")) in
  let run (pre inProc : Layer) :=
    GuardrailOrchestrator.coordinate (fun w => w)
      (GuardrailOrchestrator.create pre inProc (Sample.permissive "Intervention")
                                    Sample.engine)
      "agent-a" "export report" ∅ Sample.idle in
  let outcome (r : World * completion ref) :=
    (status <$> (match r.2 with Returned l => store r.1 !! l | Thrown _ => None end),
     activeActions r.1 !! "act-1700000000000"%string) in
  outcome (run Sample.rejecting (Sample.permissive "InProcess"))
  = (Some PRE_EXECUTION_FAILED, None)
  /\ outcome (run (Sample.permissive "PreExecution") suspending)
     = (Some SUSPENDED, None)
  /\ outcome (run (Sample.permissive "PreExecution") (Sample.permissive "InProcess"))
     = (Some AUDIT_PASSED, None)
  /\ outcome (run (Sample.permissive "PreExecution") throwing) = (None, None)
  /\ (run (Sample.permissive "PreExecution") throwing).2 = Thrown (Js.VStr "boom").
Proof. vm_compute. repeat split. Qed.

(** Scenario 2: one saturated dimension gives the score (1 - 0.15)/6, which
    is below the default warn threshold. *)
Lemma computeDeviationScore_spec_witness :
  Spec.valid defaultPredictedVector
  /\ Spec.valid Sample.noveltyOnly
  /\ computeDeviationScore defaultPredictedVector Sample.noveltyOnly
     == Spec.meanAbsoluteDifference defaultPredictedVector Sample.noveltyOnly
  /\ 0 <= computeDeviationScore defaultPredictedVector Sample.noveltyOnly <= 1
  /\ computeDeviationScore Sample.noveltyOnly Sample.noveltyOnly == 0.
Proof.
  assert (Hp : Spec.valid defaultPredictedVector)
    by (vm_compute; intuition discriminate).
  assert (Hl : Spec.valid Sample.noveltyOnly)
    by (vm_compute; intuition discriminate).
  destruct computeDeviationScore_spec as [Hscore Hsame].
  destruct (Hscore _ _ Hp Hl) as (_ & Hmean & Hunit).
  split; [exact Hp |]. split; [exact Hl |]. split; [exact Hmean |].
  split; [exact Hunit | apply Hsame].
Defined.

(** With the default thresholds the score 1/2 is in the SLOW tier. *)
Lemma resolveAction_meets_policy_witness :
  Spec.resolve (thresholds (create None None)) (1 # 2) SLOW (Some (2 # 5)).
Proof.
  apply (resolveAction_meets_policy (create None None) (1 # 2) SLOW (Some (2 # 5))).
  reflexivity.
Defined.

(** Scenario 4: the idle step has no scope drift, API novelty, sensitive
    exposure or data volume risk. *)
Lemma empty_inputs_give_zero_risk_witness :
  let live := deriveLiveBehaviorVector "generate report" Sample.idleStep Sample.policy in
  scopeDriftRisk live == 0 /\ apiNoveltyRisk live == 0
  /\ sensitiveDataExposureRisk live == 0 /\ dataVolumeRisk live == 0.
Proof.
  destruct (empty_inputs_give_zero_risk "generate report" Sample.idleStep Sample.policy)
    as (Hscope & Hapi & Hreads).
  split; [apply Hscope; right; reflexivity |].
  split; [apply Hapi; left; reflexivity |].
  apply Hreads. reflexivity.
Defined.

(** Scenario 3: "Delete all production records" under the declared intent
    "generate report" shares no token with it and contains "delete": the
    risk is 1.  "Generate data" shares one of the two declared tokens: the
    similarity is 1/2 and the risk is 0. *)
Lemma intentDeviationRisk_spec_witness :
  intentDeviationRisk
    (deriveLiveBehaviorVector "generate report" Sample.destructiveStep Sample.policy)
  == 1
  /\ intentDeviationRisk
       (deriveLiveBehaviorVector "generate report" Sample.relatedStep Sample.policy)
     == 0.
Proof.
  destruct (intentDeviationRisk_spec "generate report" Sample.destructiveStep Sample.policy)
    as (Hsim & _ & _ & Hhigh & _).
  destruct (intentDeviationRisk_spec "generate report" Sample.relatedStep Sample.policy)
    as (Hsim' & _ & Hnear & _ & _).
  split.
  - apply Hhigh.
    + discriminate.
    + rewrite <- Hsim. vm_compute. intros H. now apply H.
    + exists "delete"%string. split.
      * apply list_elem_of_In. vm_compute. tauto.
      * exists ""%string, " all production records"%string. reflexivity.
  - apply Hnear.
    + discriminate.
    + rewrite <- Hsim'. vm_compute. discriminate.
Defined.

(** A layer that lets every action through keeps every context. *)
Lemma permissive_keepsAudit (name : string) (context : ref) :
  Spec.keepsAudit (Sample.permissive name) context.
Proof.
  intros target w c S. exists c, []. cbn. now rewrite app_nil_r.
Qed.


(** A call at clock reading 1700000000000 leaves the entries of the calls
    made one millisecond earlier and later alone. *)
Lemma actionId_is_clock_reading_witness :
  exists (w1 : World) (context : ref),
    GuardrailOrchestrator.propose "agent-a" "export report" ∅ Sample.atAudit
    = (w1, Returned ("act-1700000000600"%string, context))
    /\ activeActions w1 !! "act-1700000000000"%string = Some 1%positive.
Proof.
  destruct (actionId_is_clock_reading "agent-a" "export report" ∅ Sample.atAudit)
    as (w1 & context & R & _ & _ & _ & _ & Hother).
  exists w1, context. split; [exact R |].
  apply (Hother 1700000000000%N). discriminate.
Defined.

(** An orchestrator whose pre-execution layer rejects the action returns
    the context in state PRE_EXECUTION_FAILED with the start time of the
    call and no end time. *)
Lemma pre_execution_failure_keeps_endTime_unset_witness :
  exists (w' : World) (c : ActionContext),
    GuardrailOrchestrator.coordinate (fun w => w) Sample.rejectingOrchestrator
      "agent-a" "export report" ∅ Sample.idle
    = (w', Returned 1%positive)
    /\ store w' !! 1%positive = Some c
    /\ status c = PRE_EXECUTION_FAILED
    /\ startTime c = 1700000000000%N
    /\ endTime c = None.
Proof.
  pose (c := set_status PRE_EXECUTION_FAILED
               (GuardrailOrchestrator.newContext "agent-a" "export report" ∅
                  1700000000000)).
  pose (w1 := (GuardrailOrchestrator.propose "agent-a" "export report" ∅ Sample.idle).1).
  destruct (pre_execution_failure_keeps_endTime_unset
              (fun w => w) Sample.rejectingOrchestrator "agent-a" "export report" ∅
              Sample.idle (set_store <[1%positive := c]> w1) 1%positive c)
    as (w' & R & _ & _ & S & _ & Htimes).
  - reflexivity.
  - reflexivity.
  - reflexivity.
  - exists w', c. split; [exact R |]. split; [exact S |].
    split; [reflexivity |]. apply Htimes; reflexivity.
Defined.

(** A violation for an unknown action changes nothing; a violation whose
    identifier is new to the context of an active action is appended. *)
Lemma violation_handler_spec_witness :
  GuardrailOrchestrator.onViolationDetected Sample.permissiveOrchestrator
    "act-0" Sample.novel Sample.atAudit
  = (Sample.atAudit, Returned tt)
  /\ exists (c' : ActionContext) (w1 : World),
       violations c' = [Sample.breach; Sample.novel]
       /\ store w1 !! 1%positive = Some c'
       /\ GuardrailOrchestrator.onViolationDetected Sample.permissiveOrchestrator
            "act-1700000000000" Sample.novel Sample.atAudit
          = (w1, Returned tt).
Proof.
  destruct (violation_handler_spec Sample.permissiveOrchestrator
              "act-0" Sample.novel Sample.atAudit) as [Hnone _].
  destruct (violation_handler_spec Sample.permissiveOrchestrator
              "act-1700000000000" Sample.novel Sample.atAudit) as [_ Hsome].
  split; [apply Hnone; reflexivity |].
  destruct (Hsome 1%positive Sample.flagged eq_refl eq_refl)
    as (c' & w1 & _ & Hnew & S & _ & R).
  assert (N : ~ Spec.hasId (id Sample.novel) (violations Sample.flagged)).
  { intros (v & Hv & E). apply list_elem_of_In in Hv.
    destruct Hv as [<- | []]. discriminate. }
  destruct (Hnew N) as [Hv _].
  exists c', w1. split; [exact Hv |]. split; [exact S |].
  rewrite R. reflexivity.
Defined.

End Instances.

(** * Further properties of the anomaly detection engine *)

(** ** The tiers of the mitigation policy *)

Section PolicyTiers.
Import Js AnomalyDetectionEngine.
Local Open Scope Q_scope.

Variable this : engine.

Local Ltac tier :=
  match goal with
  | |- context [geb ?a ?b] =>
      let E := fresh "E" in
      destruct (geb a b) eqn:E;
      [apply geb_true in E | apply geb_false in E]
  end.

(** What [resolveAction] returns is related by the policy. *)
Lemma resolveAction_resolve (score : Q) :
  Spec.resolve (thresholds this) score
               (resolveAction this score).1 (resolveAction this score).2.
Proof. unfold resolveAction. repeat tier; now constructor. Qed.

(** X1. A higher score never gets a milder action, whatever the four
    thresholds are (ascending or not). *)
Theorem resolveAction_monotone (s1 s2 : Q) :
  s1 <= s2 ->
  (Spec.severityRank (resolveAction this s1).1
   <= Spec.severityRank (resolveAction this s2).1)%nat.
Proof.
  intros H. unfold resolveAction.
  repeat tier; cbn [fst Spec.severityRank]; try lia; exfalso; lra.
Qed.

(** X2. With ascending thresholds each action owns an interval of scores:
    HALT from halt up, REQUIRE_APPROVAL from requireApproval up to halt,
    SLOW from slow up to requireApproval, WARN from warn up to slow, NONE
    below warn. *)
Theorem resolveAction_intervals (score : Q) :
  Spec.ascending (thresholds this) ->
  let a := (resolveAction this score).1 in
  let th := thresholds this in
  (a = HALT <-> halt th <= score)
  /\ (a = REQUIRE_APPROVAL <-> requireApproval th <= score /\ score < halt th)
  /\ (a = SLOW <-> slow th <= score /\ score < requireApproval th)
  /\ (a = WARN <-> warn th <= score /\ score < slow th)
  /\ (a = NONE <-> score < warn th).
Proof.
  intros (H1 & H2 & H3) a th. unfold a, th, resolveAction.
  repeat tier; cbn [fst];
    repeat split; intros; try discriminate; try reflexivity;
    try (exfalso; lra); try lra.
Qed.

End PolicyTiers.

(** ** The components of the live vector *)

Section LiveComponents.
Import Js AnomalyDetectionEngine.
Local Open Scope Q_scope.

Variables (declaredIntent : string) (step : ExecutionStep)
          (policy : InProcessMonitorPolicy).

Let live := deriveLiveBehaviorVector declaredIntent step policy.

Lemma inUnit_zero : Spec.inUnit 0.
Proof. split; discriminate. Qed.

Lemma inUnit_clamp01 (x : Q) : Spec.inUnit (clamp01 x).
Proof. apply clamp01_bounds. Qed.

(** X3. Whatever the step and the policy are (stability and conflict
    scores and policy bounds outside [0,1] included), the intent deviation,
    scope drift, API novelty and cooperative instability components of the
    derived live vector are in [0,1]. *)
Theorem live_risks_in_unit_interval :
  Spec.inUnit (intentDeviationRisk live)
  /\ Spec.inUnit (scopeDriftRisk live)
  /\ Spec.inUnit (apiNoveltyRisk live)
  /\ Spec.inUnit (cooperativeInstabilityRisk live).
Proof.
  unfold live.
  rewrite live_intentDeviationRisk, live_scopeDriftRisk, live_apiNoveltyRisk,
    live_cooperativeInstabilityRisk.
  cbv zeta. repeat split;
    repeat match goal with
           | |- context [if ?b then _ else _] => destruct b
           | |- context [match ?o with Some _ => _ | None => _ end] => destruct o
           | |- context [match ?l with [] => _ | _ :: _ => _ end] => destruct l
           end;
    first [ apply (proj1 (clamp01_bounds _)) | apply (proj2 (clamp01_bounds _))
          | discriminate ].
Qed.

(** The share of the elements of a non-empty array that pass a test. *)
Lemma share_unit {A : Type} (f : A -> bool) (xs : list A) :
  xs <> [] ->
  0 <= len (List.filter f xs) / len xs <= 1.
Proof.
  intros N.
  assert (P : 0 < len xs).
  { destruct xs as [| x xs]; [congruence |]. rewrite len_cons.
    pose proof (len_nonneg xs). lra. }
  assert (L : len (List.filter f xs) <= len xs).
  { unfold len. rewrite <- Zle_Qle. apply inj_le, List.filter_length_le. }
  pose proof (len_nonneg (List.filter f xs)).
  split.
  - apply Qle_shift_div_l; [exact P | lra].
  - apply Qle_shift_div_r; [exact P | lra].
Qed.

Lemma len_zero {A : Type} (xs : list A) : len xs == 0 <-> xs = [].
Proof.
  split.
  - destruct xs as [| x xs]; [reflexivity |]. rewrite len_cons.
    pose proof (len_nonneg xs). lra.
  - intros ->. reflexivity.
Qed.

Lemma share_zero {A : Type} (f : A -> bool) (xs : list A) :
  xs <> [] ->
  (len (List.filter f xs) / len xs == 0 <-> forall x : A, In x xs -> f x = false).
Proof.
  intros N.
  assert (P : ~ len xs == 0) by now rewrite len_zero.
  split.
  - intros E x Hx. destruct (f x) eqn:F; [| reflexivity].
    assert (Z : len (List.filter f xs) == 0).
    { rewrite <- (Qmult_div_r (len (List.filter f xs)) (len xs)) by exact P.
      rewrite E. ring. }
    apply len_zero in Z.
    assert (I : In x (List.filter f xs)) by now apply filter_In.
    rewrite Z in I. destruct I.
  - intros H.
    assert (Z : List.filter f xs = []).
    { destruct (List.filter f xs) as [| y ys] eqn:F; [reflexivity |].
      assert (I : In y (List.filter f xs)) by (rewrite F; now left).
      apply filter_In in I. destruct I as [I T]. rewrite (H y I) in T. discriminate. }
    rewrite Z. unfold Qdiv. apply Qmult_0_l.
Qed.

Lemma filter_all {A : Type} (f : A -> bool) (xs : list A) :
  length (List.filter f xs) = length xs <-> forall x : A, In x xs -> f x = true.
Proof.
  induction xs as [| x xs IH]; simpl.
  - split; [intros _ y [] | reflexivity].
  - destruct (f x) eqn:F; simpl.
    + split.
      * intros E y [<- | Hy]; [exact F |]. apply IH; [lia | exact Hy].
      * intros H. f_equal. apply IH. intros y Hy. apply H. now right.
    + split.
      * intros E. pose proof (List.filter_length_le f xs). lia.
      * intros H. rewrite (H x) in F by now left. discriminate.
Qed.

Lemma share_one {A : Type} (f : A -> bool) (xs : list A) :
  xs <> [] ->
  (len (List.filter f xs) / len xs == 1 <-> forall x : A, In x xs -> f x = true).
Proof.
  intros N.
  assert (P : ~ len xs == 0) by now rewrite len_zero.
  rewrite <- filter_all. split.
  - intros E.
    assert (Z : len (List.filter f xs) == len xs).
    { rewrite <- (Qmult_div_r (len (List.filter f xs)) (len xs)) by exact P.
      rewrite E. ring. }
    unfold len in Z. rewrite inject_Z_injective in Z. now apply Nat2Z.inj in Z.
  - intros E. unfold len. rewrite E. now apply Qmult_inv_r.
Qed.

(** X4. When the step used scopes, the scope drift risk is the share of the
    used scopes (repetitions counted) that the policy does not declare; it
    is 0 exactly when every used scope is declared and 1 exactly when none
    is. *)
Theorem scopeDriftRisk_share (usedScopes : list string) :
  authorityScopeUsed step = Some usedScopes ->
  usedScopes <> [] ->
  let undeclared scope := negb (arrayIncludes (declaredAuthorityScope policy) scope) in
  scopeDriftRisk live == len (List.filter undeclared usedScopes) / len usedScopes
  /\ (scopeDriftRisk live == 0
      <-> forall scope : string,
            In scope usedScopes -> scope ∈ declaredAuthorityScope policy)
  /\ (scopeDriftRisk live == 1
      <-> forall scope : string,
            In scope usedScopes -> scope ∉ declaredAuthorityScope policy).
Proof.
  intros E N undeclared. unfold live. rewrite live_scopeDriftRisk, E. cbn [default].
  cbv zeta. destruct usedScopes as [| scope scopes]; [congruence |].
  cbn [length Nat.eqb]. fold undeclared.
  destruct (share_unit undeclared (scope :: scopes) N) as [H0 H1].
  rewrite (clamp01_id _ H0 H1).
  split; [reflexivity |]. split.
  - rewrite (share_zero undeclared _ N). unfold undeclared.
    split; intros H x Hx; specialize (H x Hx).
    + apply negb_false_iff in H. now apply arrayIncludes_true.
    + apply negb_false_iff. now apply arrayIncludes_true.
  - rewrite (share_one undeclared _ N). unfold undeclared.
    split; intros H x Hx; specialize (H x Hx).
    + apply negb_true_iff in H. now apply arrayIncludes_false.
    + apply negb_true_iff. now apply arrayIncludes_false.
Qed.

(** X5. When the step called APIs, the API novelty risk is the share of the
    calls (repetitions counted) to APIs that the policy does not allow; it
    is 0 exactly when every called API is allowed and 1 exactly when none
    is. *)
Theorem apiNoveltyRisk_share (usedApis : list string) :
  apiCalls step = Some usedApis ->
  usedApis <> [] ->
  let unexpected api := negb (arrayIncludes (allowedApis policy) api) in
  apiNoveltyRisk live == len (List.filter unexpected usedApis) / len usedApis
  /\ (apiNoveltyRisk live == 0
      <-> forall api : string, In api usedApis -> api ∈ allowedApis policy)
  /\ (apiNoveltyRisk live == 1
      <-> forall api : string, In api usedApis -> api ∉ allowedApis policy).
Proof.
  intros E N unexpected. unfold live. rewrite live_apiNoveltyRisk, E. cbn [default].
  cbv zeta. destruct usedApis as [| api apis]; [congruence |].
  cbn [length Nat.eqb]. fold unexpected.
  destruct (share_unit unexpected (api :: apis) N) as [H0 H1].
  rewrite (clamp01_id _ H0 H1).
  split; [reflexivity |]. split.
  - rewrite (share_zero unexpected _ N). unfold unexpected.
    split; intros H x Hx; specialize (H x Hx).
    + apply negb_false_iff in H. now apply arrayIncludes_true.
    + apply negb_false_iff. now apply arrayIncludes_true.
  - rewrite (share_one unexpected _ N). unfold unexpected.
    split; intros H x Hx; specialize (H x Hx).
    + apply negb_true_iff in H. now apply arrayIncludes_false.
    + apply negb_true_iff. now apply arrayIncludes_false.
Qed.

End LiveComponents.

(** ** Data volume and sensitive exposure *)

Section DataRisks.
Import Js AnomalyDetectionEngine.
Local Open Scope Q_scope.

Variables (declaredIntent : string) (step : ExecutionStep)
          (policy : InProcessMonitorPolicy).

Let live := deriveLiveBehaviorVector declaredIntent step policy.

Lemma filter_and {A : Type} (f g : A -> bool) (xs : list A) :
  List.filter (fun x => f x && g x) xs = List.filter g (List.filter f xs).
Proof.
  induction xs as [| x xs IH]; simpl; [reflexivity |].
  destruct (f x); simpl; [| exact IH]. destruct (g x); now rewrite IH.
Qed.

Lemma stepSensitiveReads_sensitiveReads :
  readTotal isSensitiveRead (default [] (dataAccess step)) == Spec.sensitiveReads step.
Proof.
  rewrite readTotal_sum. unfold Spec.sensitiveReads, Spec.reads.
  assert (E : forall l : list DataAccess,
             List.filter isSensitiveRead l
             = List.filter (fun access => match sensitivity access with
                                          | SensLow => false
                                          | _ => true
                                          end)
                 (List.filter (fun access => bool_decide (operation access = OpRead)) l)).
  { intros l. rewrite <- filter_and. apply List.filter_ext. intros a.
    unfold isSensitiveRead, isRead. destruct (operation a), (sensitivity a); reflexivity. }
  now rewrite E.
Qed.

Lemma cap_positive : 1 <= Qmax 1 (maxRecordsPerStep policy).
Proof. apply Q.le_max_l. Qed.

(** X6. The data volume risk is the total read record count over the cap
    max(1, maxRecordsPerStep): 0 when nothing (or less) was read, that
    fraction up to the cap, and 1 from the cap on; a cap below 1 counts
    as 1. *)
Theorem dataVolumeRisk_saturates :
  let cap := Qmax 1 (maxRecordsPerStep policy) in
  let total := Spec.totalReads step in
  (total <= 0 -> dataVolumeRisk live == 0)
  /\ (0 <= total -> total <= cap -> dataVolumeRisk live == total / cap)
  /\ (cap <= total -> dataVolumeRisk live == 1)
  /\ (maxRecordsPerStep policy <= 1 -> 1 <= total -> dataVolumeRisk live == 1).
Proof.
  intros cap total. pose proof cap_positive as P. fold cap in P.
  assert (R : dataVolumeRisk live == clamp01 (total / cap)).
  { unfold live. rewrite live_dataVolumeRisk. fold cap.
    now rewrite stepReads_totalReads. }
  assert (Hp : 0 < cap) by lra.
  assert (Hhigh : cap <= total -> dataVolumeRisk live == 1).
  { intros H. rewrite R. apply clamp01_high. apply Qle_shift_div_l; [exact Hp | lra]. }
  split; [| split; [| split]].
  - intros H. rewrite R. apply clamp01_low.
    apply Qle_shift_div_r; [exact Hp | lra].
  - intros H0 H1. rewrite R. apply clamp01_id.
    + apply Qle_shift_div_l; [exact Hp | lra].
    + apply Qle_shift_div_r; [exact Hp | lra].
  - exact Hhigh.
  - intros Hm Ht. apply Hhigh.
    assert (C : cap == 1) by (unfold cap; now apply Q.max_l). lra.
Qed.

Lemma sum_nonneg (xs : list Q) : Forall (fun x => 0 <= x) xs -> 0 <= sum xs.
Proof.
  induction 1 as [| x xs Hx _ IH]; [discriminate |]. rewrite sum_cons. lra.
Qed.

(** X7. When no read access has a negative record count and none is of
    medium or high sensitivity, the sensitive data exposure risk is 0,
    however many records were read: accesses that are not reads, whatever
    their sensitivity, do not count. *)
Theorem sensitiveDataExposureRisk_zero :
  Forall (fun access => 0 <= default 0 (recordCount access)) (Spec.reads step) ->
  Forall (fun access => ~ Spec.sensitive access) (Spec.reads step) ->
  sensitiveDataExposureRisk live == 0.
Proof.
  intros _ H.
  assert (R : sensitiveDataExposureRisk live
              == if Qeq_bool (Spec.totalReads step) 0 then 0
                 else clamp01 (Spec.sensitiveReads step / Spec.totalReads step)).
  { unfold live. rewrite live_sensitiveDataExposureRisk. cbv zeta.
    pose proof (stepReads_totalReads step) as T.
    destruct (Qeq_bool (readTotal isRead (default [] (dataAccess step))) 0) eqn:E.
    - apply Qeq_bool_iff in E. rewrite T in E. apply Qeq_bool_iff in E.
      now rewrite E.
    - apply Qeq_bool_neq in E. rewrite T in E.
      destruct (Qeq_bool (Spec.totalReads step) 0) eqn:E'.
      + apply Qeq_bool_iff in E'. contradiction.
      + now rewrite T, stepSensitiveReads_sensitiveReads. }
  rewrite R. destruct (Qeq_bool (Spec.totalReads step) 0); [reflexivity |].
  assert (Z : Spec.sensitiveReads step == 0).
  { unfold Spec.sensitiveReads.
    assert (F : List.filter (fun access => match sensitivity access with
                                           | SensLow => false
                                           | _ => true
                                           end) (Spec.reads step) = []).
    { induction H as [| a l Ha _ IH]; simpl; [reflexivity |].
      unfold Spec.sensitive in Ha. destruct (sensitivity a); tauto. }
    rewrite F. reflexivity. }
  rewrite Z. unfold Qdiv. rewrite Qmult_0_l. reflexivity.
Qed.

End DataRisks.

(** ** Cooperative signals that are within the policy *)

Section StableSignals.
Import Js AnomalyDetectionEngine.
Local Open Scope Q_scope.

Variable policy : InProcessMonitorPolicy.

(** A signal that the code counts as within the policy: its stability is
    not below the floor, and its conflict score is absent, 0, or not above
    the cap. *)
Lemma instabilityValue_zero (signal : CooperativeSignal) :
  instabilityValue policy signal == 0
  <-> minCooperativeStability policy <= stabilityScore signal
      /\ forall c : Q, conflictScore signal = Some c ->
                       c == 0 \/ c <= maxCooperativeConflict policy.
Proof.
  unfold instabilityValue. cbv zeta.
  set (d := if ltb _ _ then _ else _).
  set (e := match conflictScore signal with Some _ => _ | None => _ end).
  assert (Hd : 0 <= d /\ (d == 0 <-> minCooperativeStability policy <= stabilityScore signal)).
  { unfold d. destruct (ltb _ _) eqn:E.
    - apply ltb_true in E. split; [lra |]. split; intros; lra.
    - apply ltb_false in E. split; [lra |]. split; intros; [exact E | reflexivity]. }
  assert (He : 0 <= e /\ (e == 0 <-> forall c : Q, conflictScore signal = Some c ->
                                      c == 0 \/ c <= maxCooperativeConflict policy)).
  { unfold e. destruct (conflictScore signal) as [c |].
    - destruct (Qeq_bool c 0) eqn:Z; simpl.
      + apply Qeq_bool_iff in Z. split; [lra |].
        split; [intros _ c' [= <-]; now left | reflexivity].
      + apply Qeq_bool_neq in Z. destruct (gtb c _) eqn:G.
        * apply gtb_true in G. split; [lra |]. split.
          -- intros H. lra.
          -- intros H. destruct (H c eq_refl); [contradiction | lra].
        * apply gtb_false in G. split; [lra |].
          split; [intros _ c' [= <-]; now right | reflexivity].
    - split; [lra |]. split; [intros _ c [=] | reflexivity]. }
  destruct Hd as [Hd0 Hd], He as [He0 He].
  rewrite <- Hd, <- He. split.
  - intros H.
    assert (S : d + e <= 0).
    { destruct (Qlt_le_dec 0 (d + e)) as [P | P]; [| exact P].
      exfalso. destruct (Qlt_le_dec (d + e) 1) as [U | U].
      - rewrite clamp01_id in H by lra. lra.
      - rewrite clamp01_high in H by exact U. discriminate H. }
    split; lra.
  - intros [Zd Ze]. rewrite Zd, Ze. reflexivity.
Qed.

Lemma sum_zero (xs : list Q) :
  Forall (fun x => 0 <= x) xs -> (sum xs == 0 <-> Forall (fun x => x == 0) xs).
Proof.
  induction 1 as [| x xs Hx Hxs IH].
  - split; [constructor | reflexivity].
  - rewrite sum_cons. pose proof (sum_nonneg xs Hxs) as S. split.
    + intros E. constructor; [lra |]. apply IH. lra.
    + intros F. inversion F as [| ? ? Zx Zxs]; subst.
      apply IH in Zxs. lra.
Qed.

(** X8. When every cooperative signal has a stability score at or above
    minCooperativeStability and a conflict score that is absent, 0, or at
    most maxCooperativeConflict, the cooperative instability risk is 0. *)
Theorem cooperativeInstabilityRisk_zero (declaredIntent : string)
    (step : ExecutionStep) (signals : list CooperativeSignal) :
  cooperativeSignals step = Some signals ->
  Forall (fun signal =>
            minCooperativeStability policy <= stabilityScore signal
            /\ forall c : Q, conflictScore signal = Some c ->
                             c == 0 \/ c <= maxCooperativeConflict policy)
         signals ->
  cooperativeInstabilityRisk (deriveLiveBehaviorVector declaredIntent step policy) == 0.
Proof.
  intros E F. rewrite live_cooperativeInstabilityRisk, E.
  destruct signals as [| signal rest]; [reflexivity |].
  set (l := signal :: rest) in *. set (values := map (instabilityValue policy) l).
  assert (Z : sum values == 0).
  { apply sum_zero.
    - apply Forall_fmap, Forall_forall. intros s _. apply clamp01_bounds.
    - unfold values. apply Forall_fmap. eapply Forall_impl; [exact F |].
      intros s Hs. now apply instabilityValue_zero. }
  rewrite Z. unfold Qdiv. rewrite Qmult_0_l. reflexivity.
Qed.

End StableSignals.

(** ** The deviation score as a distance *)

Section ScoreDistance.
Import Js AnomalyDetectionEngine.
Local Open Scope Q_scope.

Lemma score_clamp01 (p l : BehaviorVector) :
  computeDeviationScore p l == clamp01 (Spec.meanAbsoluteDifference p l).
Proof.
  unfold computeDeviationScore. cbv zeta.
  change (Qmax 0 (Qmin 1 ?x)) with (clamp01 x). now rewrite meanDelta_mean.
Qed.

Lemma Qabs_zero (x : Q) : Qabs x == 0 <-> x == 0.
Proof.
  split; intros H.
  - pose proof (Qle_Qabs x). pose proof (Qle_Qabs (- x)) as N.
    rewrite Qabs_opp in N. lra.
  - now rewrite H.
Qed.

Lemma Qabs_difference_zero (x y : Q) : Qabs (x - y) == 0 <-> x == y.
Proof. rewrite Qabs_zero. split; intros H; lra. Qed.

(** Six numbers that are not negative have mean 0 only if each is 0. *)
Lemma mean_of_six_zero (d1 d2 d3 d4 d5 d6 : Q) :
  0 <= d1 -> 0 <= d2 -> 0 <= d3 -> 0 <= d4 -> 0 <= d5 -> 0 <= d6 ->
  ((d1 + d2 + d3 + d4 + d5 + d6) / 6 == 0
   <-> d1 == 0 /\ d2 == 0 /\ d3 == 0 /\ d4 == 0 /\ d5 == 0 /\ d6 == 0).
Proof.
  intros N1 N2 N3 N4 N5 N6. split.
  - intros E.
    assert (S : d1 + d2 + d3 + d4 + d5 + d6 == 0).
    { rewrite <- (Qmult_div_r (d1 + d2 + d3 + d4 + d5 + d6) 6) by discriminate.
      rewrite E. ring. }
    repeat split; lra.
  - intros (E1 & E2 & E3 & E4 & E5 & E6).
    rewrite E1, E2, E3, E4, E5, E6. reflexivity.
Qed.

Lemma meanAbsoluteDifference_symmetric (p l : BehaviorVector) :
  Spec.meanAbsoluteDifference p l == Spec.meanAbsoluteDifference l p.
Proof.
  unfold Spec.meanAbsoluteDifference.
  now rewrite (Qabs_Qminus (intentDeviationRisk p)),
    (Qabs_Qminus (scopeDriftRisk p)), (Qabs_Qminus (apiNoveltyRisk p)),
    (Qabs_Qminus (sensitiveDataExposureRisk p)),
    (Qabs_Qminus (cooperativeInstabilityRisk p)),
    (Qabs_Qminus (dataVolumeRisk p)).
Qed.

Lemma meanAbsoluteDifference_zero (p l : BehaviorVector) :
  Spec.meanAbsoluteDifference p l == 0 <-> Spec.sameVector p l.
Proof.
  unfold Spec.meanAbsoluteDifference, Spec.sameVector.
  rewrite mean_of_six_zero by apply Qabs_nonneg.
  now rewrite !Qabs_difference_zero.
Qed.

(** X9. The deviation score does not depend on which vector is called
    predicted and which live, and it is 0 for two vectors with the same six
    scores, valid or not. *)
Theorem computeDeviationScore_symmetric (p l : BehaviorVector) :
  computeDeviationScore p l == computeDeviationScore l p
  /\ (Spec.sameVector p l -> computeDeviationScore p l == 0).
Proof.
  split.
  - rewrite !score_clamp01. apply clamp01_proper.
    apply meanAbsoluteDifference_symmetric.
  - intros E. rewrite score_clamp01.
    apply meanAbsoluteDifference_zero in E. now rewrite E.
Qed.

Lemma delta_le_differs (x y : Q) :
  Spec.inUnit x -> Spec.inUnit y ->
  Qabs (x - y) <= inject_Z (Z.of_nat (Spec.differs x y)).
Proof.
  intros Hx Hy. unfold Spec.differs. destruct (Qeq_bool x y) eqn:E.
  - apply Qeq_bool_iff in E. assert (D : x - y == 0) by lra.
    rewrite D. discriminate.
  - now apply Qabs_diff_unit.
Qed.

(** X10. For two valid vectors the deviation score is at most a sixth of
    the number of dimensions on which they differ; a deviation on one
    dimension alone, however large, leaves the score at or below 1/6, for
    which an engine with the default thresholds takes no action. *)
Theorem computeDeviationScore_differing_dimensions (p l : BehaviorVector) :
  Spec.valid p -> Spec.valid l ->
  computeDeviationScore p l
  <= inject_Z (Z.of_nat (Spec.differingDimensions p l)) / 6
  /\ ((Spec.differingDimensions p l <= 1)%nat ->
      computeDeviationScore p l <= 1 # 6
      /\ resolveAction (create None None) (computeDeviationScore p l) = (NONE, None)).
Proof.
  intros Hp Hl.
  pose proof Hp as (P1 & P2 & P3 & P4 & P5 & P6).
  pose proof Hl as (L1 & L2 & L3 & L4 & L5 & L6).
  assert (B : computeDeviationScore p l
              <= inject_Z (Z.of_nat (Spec.differingDimensions p l)) / 6).
  { rewrite (computeDeviationScore_unclamped p l Hp Hl).
    unfold Spec.meanAbsoluteDifference, Spec.differingDimensions.
    rewrite !Nat2Z.inj_add, !inject_Z_plus.
    pose proof (delta_le_differs _ _ P1 L1). pose proof (delta_le_differs _ _ P2 L2).
    pose proof (delta_le_differs _ _ P3 L3). pose proof (delta_le_differs _ _ P4 L4).
    pose proof (delta_le_differs _ _ P5 L5). pose proof (delta_le_differs _ _ P6 L6).
    apply Qle_shift_div_l; [reflexivity |].
    unfold Qdiv. rewrite <- Qmult_assoc, (Qmult_comm (/ 6)), Qmult_inv_r by discriminate.
    lra. }
  split; [exact B |]. intros K.
  assert (S : computeDeviationScore p l <= 1 # 6).
  { eapply Qle_trans; [exact B |].
    apply Qle_shift_div_r; [reflexivity |].
    assert (U : (1 # 6) * 6 == inject_Z 1) by reflexivity.
    rewrite U, <- Zle_Qle. lia. }
  split; [exact S |].
  unfold resolveAction, create. cbn [thresholds halt requireApproval slow warn default mbind option_bind].
  assert (G : forall t : Q, 1 # 6 < t -> geb (computeDeviationScore p l) t = false).
  { intros t Ht. apply geb_false. lra. }
  now rewrite !G by reflexivity.
Qed.

End ScoreDistance.

(** ** Decisions *)

Section Decisions.
Import Js AnomalyDetectionEngine.
Local Open Scope Q_scope.

(** X11. The decision of [evaluate] is the policy's answer to the score of
    the live vector against the action's predicted vector, or against the
    default vector when the action has none: the threshold is absent
    exactly for NONE, and otherwise it is the engine's cut point for the
    action and the score reaches it. *)
Theorem evaluate_decision (this : engine)
    (predictedBehaviorVector : option BehaviorVector) (declaredIntent : string)
    (step : ExecutionStep) (policy : InProcessMonitorPolicy) :
  let d := evaluate this predictedBehaviorVector declaredIntent step policy in
  predicted d = default defaultPredictedVector predictedBehaviorVector
  /\ live d = deriveLiveBehaviorVector declaredIntent step policy
  /\ deviationScore d = computeDeviationScore (predicted d) (live d)
  /\ (threshold d = None <-> action d = NONE)
  /\ (forall t : Q, threshold d = Some t ->
        t <= deviationScore d
        /\ t = match action d with
               | HALT => halt (thresholds this)
               | REQUIRE_APPROVAL => requireApproval (thresholds this)
               | SLOW => slow (thresholds this)
               | _ => warn (thresholds this)
               end).
Proof.
  intros d. unfold d, evaluate. cbv zeta.
  set (p := default defaultPredictedVector predictedBehaviorVector).
  set (l := deriveLiveBehaviorVector declaredIntent step policy).
  pose proof (resolveAction_resolve this (computeDeviationScore p l)) as R.
  destruct (resolveAction this (computeDeviationScore p l)) as [a t].
  cbn [deviationScore action threshold predicted live fst snd] in *.
  split; [reflexivity |]. split; [reflexivity |]. split; [reflexivity |].
  inversion R; subst; (split; [split; congruence |]);
    intros t' [= <-] || intros t' [=]; now split.
Qed.

End Decisions.

(** ** Bounds of the intent similarity *)

Section SimilarityBounds.
Import Js AnomalyDetectionEngine.
Local Open Scope Q_scope.

Implicit Types observed declared : string.

Lemma overlap_le_declared observed declared :
  (size (filter (fun token => token ∈ Spec.tokenSet observed) (Spec.tokenSet declared))
   <= size (Spec.tokenSet declared))%nat.
Proof. apply subseteq_size. intros x. rewrite elem_of_filter. tauto. Qed.

Lemma similarity_cases observed declared :
  (Spec.tokenSet observed = ∅ \/ Spec.tokenSet declared = ∅)
  /\ Spec.similarity observed declared = 0
  \/ Spec.tokenSet observed <> ∅ /\ Spec.tokenSet declared <> ∅
     /\ (0 < size (Spec.tokenSet declared))%nat
     /\ Spec.similarity observed declared
        = inject_Z (Z.of_nat (size (filter (fun token => token ∈ Spec.tokenSet observed)
                                           (Spec.tokenSet declared))))
          / inject_Z (Z.of_nat (size (Spec.tokenSet declared))).
Proof.
  unfold Spec.similarity. cbv zeta.
  destruct (decide (Spec.tokenSet observed = ∅ \/ Spec.tokenSet declared = ∅)) as [E | N].
  - now left.
  - right. split; [tauto |]. split; [tauto |]. split; [| reflexivity].
    assert (S : size (Spec.tokenSet declared) <> 0%nat).
    { rewrite size_non_empty_iff. intros H. apply leibniz_equiv in H. tauto. }
    lia.
Qed.

(** X12. The intent similarity is in [0,1]; it is 1 when the declared
    intent has a token longer than 3 characters and all such tokens occur
    among the observed ones, and it is 0 exactly when the two intents share
    no token longer than 3 characters. *)
Theorem intentSimilarity_bounds observed declared :
  0 <= intentSimilarity observed declared <= 1
  /\ (Spec.tokenSet declared <> ∅ ->
      Spec.tokenSet declared ⊆ Spec.tokenSet observed ->
      intentSimilarity observed declared == 1)
  /\ (intentSimilarity observed declared == 0
      <-> Spec.tokenSet observed ∩ Spec.tokenSet declared = ∅).
Proof.
  rewrite !intentSimilarity_similarity.
  pose proof (overlap_le_declared observed declared) as L.
  destruct (similarity_cases observed declared)
    as [[E ->] | (NO & ND & P & ->)].
  - split; [split; discriminate |]. split.
    + intros ND Hsub. destruct E as [E | E]; [| contradiction].
      rewrite E in Hsub. exfalso. apply ND. apply set_eq. intros x.
      split; [apply Hsub | intros H; now apply not_elem_of_empty in H].
    + split; [| reflexivity]. intros _.
      destruct E as [-> | ->];
        [apply intersection_empty_l_L | apply intersection_empty_r_L].
  - set (k := size (filter _ _)) in *. set (n := size (Spec.tokenSet declared)) in *.
    assert (Pn : 0 < inject_Z (Z.of_nat n)).
    { change 0 with (inject_Z 0). rewrite <- Zlt_Qlt. lia. }
    assert (Lk : inject_Z (Z.of_nat k) <= inject_Z (Z.of_nat n))
      by (rewrite <- Zle_Qle; lia).
    assert (Nk : 0 <= inject_Z (Z.of_nat k)).
    { change 0 with (inject_Z 0). rewrite <- Zle_Qle. lia. }
    split; [| split].
    + split; [apply Qle_shift_div_l | apply Qle_shift_div_r]; try exact Pn; lra.
    + intros _ Hsub.
      assert (F : filter (fun token => token ∈ Spec.tokenSet observed)
                         (Spec.tokenSet declared) = Spec.tokenSet declared).
      { apply set_eq. intros x. rewrite elem_of_filter. split; [tauto |].
        intros H. split; [now apply Hsub | exact H]. }
      unfold k. rewrite F. fold n. apply Qmult_inv_r. lra.
    + assert (Z : inject_Z (Z.of_nat k) / inject_Z (Z.of_nat n) == 0 <-> k = 0%nat).
      { split; intros H.
        - assert (K : inject_Z (Z.of_nat k) == 0).
          { rewrite <- (Qmult_div_r (inject_Z (Z.of_nat k)) (inject_Z (Z.of_nat n))) by lra.
            rewrite H. ring. }
          change 0 with (inject_Z 0) in K. rewrite inject_Z_injective in K. lia.
        - rewrite H. unfold Qdiv. apply Qmult_0_l. }
      rewrite Z. unfold k. rewrite size_empty_iff, leibniz_equiv_iff.
      split; intros H; apply set_eq; intros x.
      * assert (X : x ∉ filter (fun token => token ∈ Spec.tokenSet observed)
                              (Spec.tokenSet declared))
          by (rewrite H; apply not_elem_of_empty).
        rewrite elem_of_filter in X. rewrite elem_of_intersection.
        split; [tauto | intros H0; now apply not_elem_of_empty in H0].
      * assert (X : x ∉ Spec.tokenSet observed ∩ Spec.tokenSet declared)
          by (rewrite H; apply not_elem_of_empty).
        rewrite elem_of_intersection in X. rewrite elem_of_filter.
        split; [tauto | intros H0; now apply not_elem_of_empty in H0].
Qed.

End SimilarityBounds.

(** ** Intents that match, intents without long words, and letter case *)

Section IntentEdges.
Import Js AnomalyDetectionEngine.
Local Open Scope Q_scope.

Variables (declaredIntent : string) (step : ExecutionStep)
          (policy : InProcessMonitorPolicy).

Let observedText := default EmptyString (observedIntent step).
Let observed := toLowerCase observedText.
Let declared := toLowerCase declaredIntent.
Let risk := intentDeviationRisk (deriveLiveBehaviorVector declaredIntent step policy).

Lemma risk_cases :
  risk
  = clamp01
      (if String.eqb observed EmptyString then 0
       else if geb (intentSimilarity observed declared) (1 # 4) then 0
       else if existsb (fun word => includes observed word) highImpactIntentWords
            then 1 else 65 # 100).
Proof. apply live_intentDeviationRisk. Qed.

Lemma tokenSet_empty_text : Spec.tokenSet EmptyString = ∅.
Proof. reflexivity. Qed.

(** X13. An observed intent that contains every token longer than 3
    characters of the declared intent (letter case aside), the declared
    intent having one, is no deviation: the risk is 0, also when the
    observed intent contains a high-impact word. *)
Theorem matching_intent_is_no_deviation :
  Spec.tokenSet declared <> ∅ ->
  Spec.tokenSet declared ⊆ Spec.tokenSet observed ->
  risk == 0.
Proof.
  intros ND Hsub. rewrite risk_cases.
  destruct (String.eqb observed EmptyString) eqn:E; [reflexivity |].
  assert (S : intentSimilarity observed declared == 1).
  { rewrite intentSimilarity_similarity.
    destruct (similarity_cases observed declared) as [[[EO | ED] _] | (_ & _ & P & ->)].
    - rewrite EO in Hsub. exfalso. apply ND. apply set_eq. intros x.
      split; [apply Hsub | intros H; now apply not_elem_of_empty in H].
    - contradiction.
    - assert (F : filter (fun token => token ∈ Spec.tokenSet observed)
                         (Spec.tokenSet declared) = Spec.tokenSet declared).
      { apply set_eq. intros x. rewrite elem_of_filter. split; [tauto |].
        intros H. split; [now apply Hsub | exact H]. }
      rewrite F. apply Qmult_inv_r.
      assert (Pn : 0 < inject_Z (Z.of_nat (size (Spec.tokenSet declared)))).
      { change 0 with (inject_Z 0). rewrite <- Zlt_Qlt. lia. }
      lra. }
  assert (G : geb (intentSimilarity observed declared) (1 # 4) = true).
  { apply geb_true. rewrite S. discriminate. }
  rewrite G. reflexivity.
Qed.

(** X14. When the observed intent is not empty and either intent has no
    token longer than 3 characters, the step always deviates: the risk is 1
    if a high-impact word occurs in the observed intent and 0.65 if none
    does, whatever else the two intents say. *)
Theorem intents_without_long_words_deviate :
  observedText <> EmptyString ->
  Spec.tokenSet observed = ∅ \/ Spec.tokenSet declared = ∅ ->
  ((exists word : string, word ∈ Spec.highImpactVerbs /\ Spec.substring word observed) ->
   risk == 1)
  /\ (~ (exists word : string, word ∈ Spec.highImpactVerbs /\ Spec.substring word observed) ->
      risk == 65 # 100).
Proof.
  intros N E. rewrite risk_cases.
  assert (NE : String.eqb observed EmptyString = false).
  { apply String.eqb_neq. unfold observed. now rewrite toLowerCase_empty. }
  assert (S : geb (intentSimilarity observed declared) (1 # 4) = false).
  { apply geb_false. rewrite intentSimilarity_similarity.
    unfold Spec.similarity. cbv zeta. rewrite decide_True by exact E. lra. }
  rewrite NE, S. split; intros V.
  - apply highImpact_substring in V. rewrite V. reflexivity.
  - destruct (existsb (fun word => includes observed word) highImpactIntentWords) eqn:X.
    + now apply highImpact_substring in X.
    + reflexivity.
Qed.

End IntentEdges.

Section LetterCase.
Import Js AnomalyDetectionEngine.

Lemma lowerUnit_idempotent (c : ascii) : lowerUnit (lowerUnit c) = lowerUnit c.
Proof. destruct c as [[] [] [] [] [] [] [] []]; reflexivity. Qed.

Lemma toLowerCase_idempotent (s : string) : toLowerCase (toLowerCase s) = toLowerCase s.
Proof.
  induction s as [| c s IH]; simpl; [reflexivity |].
  now rewrite lowerUnit_idempotent, IH.
Qed.

(** X15. The intent deviation risk does not see letter case: two declared
    intents that agree in lower case, with two steps whose observed intents
    agree in lower case, get the same risk; in particular writing both
    intents in lower case changes nothing. *)
Theorem intentDeviationRisk_ignores_case (intent1 intent2 : string)
    (step1 step2 : ExecutionStep) (policy1 policy2 : InProcessMonitorPolicy) :
  toLowerCase intent1 = toLowerCase intent2 ->
  toLowerCase (default EmptyString (observedIntent step1))
  = toLowerCase (default EmptyString (observedIntent step2)) ->
  intentDeviationRisk (deriveLiveBehaviorVector intent1 step1 policy1)
  = intentDeviationRisk (deriveLiveBehaviorVector intent2 step2 policy2)
  /\ intentDeviationRisk (deriveLiveBehaviorVector intent1 step1 policy1)
     = intentDeviationRisk
         (deriveLiveBehaviorVector
            (toLowerCase intent1)
            {| observedIntent := toLowerCase <$> observedIntent step1;
               authorityScopeUsed := authorityScopeUsed step1;
               apiCalls := apiCalls step1;
               dataAccess := dataAccess step1;
               cooperativeSignals := cooperativeSignals step1 |}
            policy1).
Proof.
  intros Hi Ho. rewrite !live_intentDeviationRisk. cbv zeta. split.
  - now rewrite Hi, Ho.
  - cbn [observedIntent]. rewrite toLowerCase_idempotent.
    destruct (observedIntent step1) as [o |].
    + change (default EmptyString (toLowerCase <$> Some o)) with (toLowerCase o).
      now rewrite toLowerCase_idempotent.
    + reflexivity.
Qed.

End LetterCase.

(** * Further properties of the post-execution audit *)

Section AuditFrame.
Import PostExecutionLayer.

Variable this : PostExecutionLayer.t.

Implicit Types (w : World) (context : ref) (c : ActionContext).

(** X16. An audit that finds no CRITICAL violation and no truthy
    [params.invalidResult] sets the status of the audited context to
    AUDIT_PASSED and changes nothing else, whatever handlers are registered
    for the violation event: no violation is published, so none of them
    runs; the other fields of the context, the other objects, the active set
    and the clock are as before; "audit started" and "audit completed" are
    all that is published, and there is no remediation. *)
Theorem passing_audit_changes_status_only w context c :
  store w !! context = Some c ->
  (forall v : Violation, v ∈ violations c -> severity v <> CRITICAL) ->
  Js.truthy (params c !! "invalidResult"%string) = false ->
  exists w' : World,
    process this context w = (w', Returned context)
    /\ store w' = <[context := set_status AUDIT_PASSED c]> (store w)
    /\ activeActions w' = activeActions w
    /\ clock w' = clock w
    /\ published w' = published w ++ [AUDIT_STARTED context; AUDIT_COMPLETED context].
Proof.
  intros H Hv Ht. apply process_passed; [exact H |].
  apply orb_false_iff. split; [| exact Ht].
  destruct (existsb isCritical (violations c)) eqn:E; [| reflexivity].
  apply hasCriticalViolation_true in E. destruct E as (v & Hin & Hs).
  now destruct (Hv v Hin).
Qed.

(** The outcome of an audit, read off the context it leaves. *)
Lemma audit_outcome w context c w' c' :
  store w !! context = Some c ->
  Spec.bystanders (eventBus this) context ->
  process this context w = (w', Returned context) ->
  store w' !! context = Some c' ->
  status c' = AUDIT_FAILED ->
  exists v : Violation,
    v = auditViolation (clock w) (params c !! "invalidResult"%string)
    /\ violations c' = violations c ++ [v].
Proof.
  intros H Hby R S F.
  destruct (existsb isCritical (violations c)
            || Js.truthy (params c !! "invalidResult"%string)) eqn:Hb.
  - destruct (process_failed this w context c H Hb Hby)
      as (w0 & c0 & reactions & R0 & S0 & _ & V0 & _).
    rewrite R in R0. inversion R0; subst w0.
    rewrite S in S0. inversion S0; subst c0.
    eexists. split; [reflexivity | exact V0].
  - destruct (process_passed this w context c H Hb) as (w0 & R0 & S0 & _).
    rewrite R in R0. inversion R0; subst w0.
    rewrite S0, lookup_insert_eq in S. inversion S; subst c'. discriminate F.
Qed.

(** X17. A failed audit is final for the context: the violation it added
    is CRITICAL, so every later audit of that context fails too, as long as
    the violations recorded so far are still there -- also when
    [params.invalidResult], the only cause of the first failure, has been
    cleared since.  The handlers of the violation event stand by. *)
Theorem failed_audit_is_final w context c w1 c1 w2 c2 :
  Spec.bystanders (eventBus this) context ->
  store w !! context = Some c ->
  process this context w = (w1, Returned context) ->
  store w1 !! context = Some c1 ->
  status c1 = AUDIT_FAILED ->
  store w2 !! context = Some c2 ->
  (forall v : Violation, v ∈ violations c1 -> v ∈ violations c2) ->
  exists (w3 : World) (c3 : ActionContext),
    process this context w2 = (w3, Returned context)
    /\ store w3 !! context = Some c3
    /\ status c3 = AUDIT_FAILED.
Proof.
  intros Hby H R S F H2 Hsub.
  destruct (audit_outcome w context c w1 c1 H Hby R S F) as (v & Ev & Hv).
  assert (Hb : existsb isCritical (violations c2)
               || Js.truthy (params c2 !! "invalidResult"%string) = true).
  { apply orb_true_iff. left. apply hasCriticalViolation_true.
    exists v. split; [| now rewrite Ev].
    apply Hsub. rewrite Hv. apply elem_of_app. right. now apply list_elem_of_singleton. }
  destruct (process_failed this w2 context c2 H2 Hb Hby)
    as (w3 & c3 & _ & R3 & S3 & St3 & _).
  now exists w3, c3.
Qed.

(** X18. The audit appends its violation without looking at the
    identifiers already present, and the identifier is made of the clock
    reading alone: a context audited twice at the same clock reading holds
    two violations with the same identifier.  The handlers of the violation
    event stand by. *)
Theorem repeated_audit_repeats_identifier w context c w1 c1 w2 c2 :
  Spec.bystanders (eventBus this) context ->
  store w !! context = Some c ->
  process this context w = (w1, Returned context) ->
  store w1 !! context = Some c1 ->
  status c1 = AUDIT_FAILED ->
  clock w1 = clock w ->
  process this context w1 = (w2, Returned context) ->
  store w2 !! context = Some c2 ->
  exists v v' : Violation,
    violations c2 = violations c ++ [v; v']
    /\ id v = id v'
    /\ ~ NoDup (id <$> violations c2).
Proof.
  intros Hby H R S F C R2 S2.
  destruct (audit_outcome w context c w1 c1 H Hby R S F) as (v & Ev & Hv).
  assert (Hb : existsb isCritical (violations c1)
               || Js.truthy (params c1 !! "invalidResult"%string) = true).
  { apply orb_true_iff. left. apply hasCriticalViolation_true.
    exists v. split; [| now rewrite Ev].
    rewrite Hv. apply elem_of_app. right. now apply list_elem_of_singleton. }
  destruct (process_failed this w1 context c1 S Hb Hby)
    as (w0 & c0 & _ & R0 & S0 & _ & V0 & _).
  rewrite R2 in R0. inversion R0; subst w0.
  rewrite S2 in S0. inversion S0; subst c0. clear S0 R0.
  exists v, (auditViolation (clock w1) (params c1 !! "invalidResult"%string)).
  rewrite V0, Hv, <- app_assoc. cbn [app].
  split; [reflexivity |].
  assert (I : id v = id (auditViolation (clock w1) (params c1 !! "invalidResult"%string))).
  { rewrite Ev, C. reflexivity. }
  split; [exact I |].
  rewrite fmap_app. intros D. apply NoDup_app in D. destruct D as (_ & _ & D).
  cbn in D. rewrite I in D. apply NoDup_cons in D. destruct D as [D _].
  apply D. now left.
Qed.

End AuditFrame.

(** * Further properties of the orchestrator *)

Section HandlerComposition.
Import GuardrailOrchestrator.

Variable this : GuardrailOrchestrator.t.

Implicit Types (w : World) (context : ref) (c : ActionContext).

(** The delivery of a violation whose identifier the context has. *)
Lemma onViolationDetected_known (action : string) (violation : Violation)
    w context c :
  activeActions w !! action = Some context ->
  store w !! context = Some c ->
  Spec.hasId (id violation) (violations c) ->
  onViolationDetected this action violation w
  = (process (interventionLayer this) context ≫= fun _ => mret tt) w.
Proof.
  intros A S P. unfold onViolationDetected, violationHandler, getActive.
  unfold mbind at 1, M_bind at 1. rewrite A.
  erewrite run_read by eassumption.
  apply find_id_some in P. destruct P as [v ->]. now rewrite run_ret.
Qed.

(** X19. The violation of a failed audit is delivered inside the audit.
    When the audit publishes it, the context is already marked AUDIT_FAILED
    and already holds the violation, so the orchestrator's handler appends
    nothing; it runs the intervention layer on that context there and then,
    before "remediation triggered" is published.  Remediation and the
    closing event follow in the state that the intervention layer left,
    whether it returned or threw. *)
Theorem audit_violation_is_delivered_inside (engine : RemediationEngine.t)
    w context c :
  let auditor :=
    {| PostExecutionLayer.remediationEngine := engine;
       PostExecutionLayer.eventBus := setupEventHandlers (interventionLayer this) |} in
  store w !! context = Some c ->
  activeActions w !! actionId c = Some context ->
  (exists v : Violation, v ∈ violations c /\ severity v = CRITICAL)
  \/ Js.truthy (params c !! "invalidResult"%string) = true ->
  let v := PostExecutionLayer.auditViolation
             (clock w) (params c !! "invalidResult"%string) in
  let delivered :=
    set_published
      (fun es => es ++ [AUDIT_STARTED context; VIOLATION_DETECTED (actionId c) v])
      (set_store <[context := set_status AUDIT_FAILED (push_violation v c)]> w) in
  PostExecutionLayer.process auditor context w
  = (PostExecutionLayer.triggerRemediation auditor context;;
     emit (AUDIT_COMPLETED context);;
     mret context)
      (process (interventionLayer this) context delivered).1.
Proof.
  intros auditor H A D v delivered.
  assert (Hb : existsb PostExecutionLayer.isCritical (violations c)
               || Js.truthy (params c !! "invalidResult"%string) = true).
  { apply orb_true_iff. destruct D as [D | D]; [left | now right].
    now apply hasCriticalViolation_true. }
  rewrite (process_failing auditor w context c H Hb). fold v. fold delivered.
  cbn [PostExecutionLayer.eventBus auditor violationHandlers setupEventHandlers deliver].
  rewrite run_assoc, run_async, run_ret.
  rewrite violationHandler_state.
  assert (A' : activeActions delivered !! actionId c = Some context) by exact A.
  assert (S' : store delivered !! context
               = Some (set_status AUDIT_FAILED (push_violation v c))).
  { cbn. apply lookup_insert_eq. }
  rewrite A', S'.
  assert (P : is_Some (List.find (fun v0 => String.eqb (id v0) (id v))
                         (violations (set_status AUDIT_FAILED (push_violation v c))))).
  { apply find_id_some. exists v. split; [| reflexivity].
    cbn. apply elem_of_app. right. now apply list_elem_of_singleton. }
  destruct P as [v0 ->]. reflexivity.
Qed.

(** The delivery of a violation to an active action, as one step: the
    context is completed if need be, then the intervention layer runs. *)
Lemma onViolationDetected_run (action : string) (violation : Violation)
    w context c :
  activeActions w !! action = Some context ->
  store w !! context = Some c ->
  exists c1 : ActionContext,
    Spec.hasId (id violation) (violations c1)
    /\ (forall v : Violation, v ∈ violations c -> v ∈ violations c1)
    /\ store (set_store <[context := c1]> w) !! context = Some c1
    /\ onViolationDetected this action violation w
       = (process (interventionLayer this) context ≫= fun _ => mret tt)
           (set_store <[context := c1]> w).
Proof.
  intros A S. unfold onViolationDetected, violationHandler, getActive.
  unfold mbind at 1, M_bind at 1. rewrite A.
  erewrite run_read by eassumption.
  pose proof (find_id_some (id violation) (violations c)) as F.
  destruct (List.find (fun v => String.eqb (id v) (id violation)) (violations c))
    as [v |].
  - exists c. split; [apply F; eauto |]. split; [tauto |].
    split; [cbn; apply lookup_insert_eq |].
    rewrite run_ret. f_equal. unfold set_store.
    rewrite insert_id by exact S. now destruct w.
  - exists (push_violation violation c).
    split.
    { exists violation. split; [| reflexivity]. cbn. apply elem_of_app. right.
      now apply list_elem_of_singleton. }
    split; [intros v Hv; cbn; apply elem_of_app; now left |].
    split; [cbn; apply lookup_insert_eq |].
    now erewrite run_assign by eassumption.
Qed.

(** X20. A violation delivered twice is recorded once.  With an
    intervention layer that leaves the action active and removes no
    violation from its context, a second delivery of a violation with the
    same identifier finds it there and records nothing. *)
Theorem second_delivery_records_nothing (action : string)
    (violation again : Violation) w context c w2 (outcome : completion unit) :
  (forall (w1 w' : World) (c1 : ActionContext) (r : completion ref),
      activeActions w1 !! action = Some context ->
      store w1 !! context = Some c1 ->
      process (interventionLayer this) context w1 = (w', r) ->
      activeActions w' !! action = Some context
      /\ exists c' : ActionContext,
           store w' !! context = Some c'
           /\ forall v : Violation, v ∈ violations c1 -> v ∈ violations c') ->
  activeActions w !! action = Some context ->
  store w !! context = Some c ->
  id again = id violation ->
  onViolationDetected this action violation w = (w2, outcome) ->
  onViolationDetected this action again w2
  = (process (interventionLayer this) context ≫= fun _ => mret tt) w2.
Proof.
  intros Hlayer A S E R.
  destruct (onViolationDetected_run action violation w context c A S)
    as (c1 & (v & Hv & Hid) & _ & S1 & R1).
  rewrite R in R1. unfold mbind, M_bind in R1.
  destruct (process (interventionLayer this) context (set_store <[context := c1]> w))
    as [w' r] eqn:L.
  destruct (Hlayer (set_store <[context := c1]> w) w' c1 r A S1 L)
    as (A' & c' & S' & Hkeep).
  assert (W : w2 = w') by (destruct r; now inversion R1). subst w'.
  eapply onViolationDetected_known; [exact A' | exact S' |].
  exists v. split; [now apply Hkeep | congruence].
Qed.

End HandlerComposition.

(** ** The outcomes of a coordination *)

Section Outcomes.
Import GuardrailOrchestrator.

Variable timer : World -> World.
Variables (pre inProc intervention : Layer) (engine : RemediationEngine.t).
Variables (agentId intent : string) (payload : gmap string Js.value).

Let this := create pre inProc intervention engine.
Let auditor :=
  {| PostExecutionLayer.remediationEngine := engine;
     PostExecutionLayer.eventBus := setupEventHandlers intervention |}.

Implicit Types (w : World) (context : ref) (c : ActionContext).

(** X21. An error thrown by the pre-execution layer, or by the in-process
    layer after a pre-execution that did not fail, is the error with which
    [coordinate] ends: the orchestrator catches nothing, publishes nothing
    more, stamps no end time, runs no later stage, and removes the action's
    entry. *)
Theorem thrown_errors_pass_through w (e : Js.value) :
  let action := newActionId (clock w) in
  let proposed := (propose agentId intent payload w).1 in
  (forall w2 : World,
      process pre (fresh (dom (store w))) proposed = (w2, Thrown e) ->
      coordinate timer this agentId intent payload w
      = (set_activeActions (delete action) w2, Thrown e))
  /\ (forall (w2 w3 : World) (context2 : ref) (c2 : ActionContext),
        process pre (fresh (dom (store w))) proposed = (w2, Returned context2) ->
        store w2 !! context2 = Some c2 ->
        status c2 <> PRE_EXECUTION_FAILED ->
        process inProc context2 w2 = (w3, Thrown e) ->
        coordinate timer this agentId intent payload w
        = (set_activeActions (delete action) w3, Thrown e)).
Proof.
  cbv zeta. split.
  - intros w2 H. rewrite coordinate_run.
    now rewrite (pipeline_pre_execution_throws timer this _ _ _ _ H).
  - intros w2 w3 context2 c2 H S F H'. rewrite coordinate_run.
    assert (P : pipeline timer this (fresh (dom (store w)))
                         (propose agentId intent payload w).1 = (w3, Thrown e)).
    { unfold pipeline. unfold mbind at 1, M_bind at 1.
      change (process (preExecution this)) with (process pre). rewrite H.
      erewrite run_read by eassumption. rewrite decide_False by exact F.
      unfold mbind at 1, M_bind at 1.
      change (process (inProcess this)) with (process inProc). now rewrite H'. }
    now rewrite P.
Qed.

(** X22. When the in-process layer returns a context in state SUSPENDED,
    [coordinate] returns that context with the clock reading as its end
    time and nothing else changed: the state stays SUSPENDED, "action
    completed" is not published, no audit and no remediation take place,
    and the action's entry is removed. *)
Theorem suspension_ends_the_coordination w w2 context2 c2 w3 context3 c3 :
  process pre (fresh (dom (store w))) (propose agentId intent payload w).1
  = (w2, Returned context2) ->
  store w2 !! context2 = Some c2 ->
  status c2 <> PRE_EXECUTION_FAILED ->
  process inProc context2 w2 = (w3, Returned context3) ->
  store w3 !! context3 = Some c3 ->
  status c3 = SUSPENDED ->
  exists w' : World,
    coordinate timer this agentId intent payload w = (w', Returned context3)
    /\ store w' = <[context3 := set_endTime (Some (clock w3)) c3]> (store w3)
    /\ published w' = published w3
    /\ clock w' = clock w3
    /\ activeActions w' = delete (newActionId (clock w)) (activeActions w3)
    /\ (status <$> store w' !! context3) = Some SUSPENDED
    /\ (remediationReport <$> store w' !! context3) = Some (remediationReport c3).
Proof.
  intros H S F H' S' F'. rewrite coordinate_run.
  rewrite (pipeline_suspended timer this _ _ _ _ _ _ _ _ H S F H' S' F').
  eexists. split; [reflexivity |]. cbn.
  rewrite lookup_insert_eq. cbn. now rewrite F'.
Qed.

(** X23. When neither early exit is taken, [coordinate] stamps the end
    time with the clock reading after the timer, publishes "action
    completed" and then runs the audit on the context as it is then, with
    the orchestrator's own handler on the bus.  If the intervention layer
    keeps the status and the violations of that context, the result is
    AUDIT_FAILED, with one more CRITICAL COMPLIANCE violation, if the
    context holds a CRITICAL violation or a truthy [params.invalidResult],
    and AUDIT_PASSED with the same violations and the stamped end time
    otherwise; the audit's events follow "action completed", "audit
    completed" comes last, and the action's entry is removed. *)
Theorem completion_runs_the_audit w w2 context2 c2 w3 context3 c3 c4 :
  process pre (fresh (dom (store w))) (propose agentId intent payload w).1
  = (w2, Returned context2) ->
  store w2 !! context2 = Some c2 ->
  status c2 <> PRE_EXECUTION_FAILED ->
  process inProc context2 w2 = (w3, Returned context3) ->
  store w3 !! context3 = Some c3 ->
  status c3 <> SUSPENDED ->
  store (timer w3) !! context3 = Some c4 ->
  Spec.keepsAudit intervention context3 ->
  let disqualified :=
    (exists v : Violation, v ∈ violations c4 /\ severity v = CRITICAL)
    \/ Js.truthy (params c4 !! "invalidResult"%string) = true in
  exists (w' : World) (c' : ActionContext) (audit : list Event),
    coordinate timer this agentId intent payload w = (w', Returned context3)
    /\ store w' !! context3 = Some c'
    /\ (disqualified ->
        status c' = AUDIT_FAILED
        /\ exists v : Violation,
             violations c' = violations c4 ++ [v]
             /\ severity v = CRITICAL /\ category v = COMPLIANCE)
    /\ (~ disqualified ->
        status c' = AUDIT_PASSED
        /\ violations c' = violations c4
        /\ endTime c' = Some (clock (timer w3)))
    /\ published w'
       = published (timer w3)
         ++ ACTION_COMPLETED context3 :: AUDIT_STARTED context3 :: audit
    /\ last audit = Some (AUDIT_COMPLETED context3)
    /\ activeActions w' !! newActionId (clock w) = None.
Proof.
  intros H S F H' S' F' T K disqualified. rewrite coordinate_run.
  rewrite (pipeline_completed timer this _ _ _ _ _ _ _ _ _ H S F H' S' F' T).
  change (process (postExecution this)) with (PostExecutionLayer.process auditor).
  set (c5 := set_status COMPLETED (set_endTime (Some (clock (timer w3))) c4)).
  set (w4 := set_published _ _).
  assert (S4 : store w4 !! context3 = Some c5) by (cbn; apply lookup_insert_eq).
  destruct (existsb PostExecutionLayer.isCritical (violations c5)
            || Js.truthy (params c5 !! "invalidResult"%string)) eqn:Hb.
  - assert (D : disqualified).
    { apply orb_true_iff in Hb. destruct Hb as [Hb | Hb]; [left | now right].
      now apply hasCriticalViolation_true in Hb. }
    assert (Hby : Spec.bystanders (PostExecutionLayer.eventBus auditor) context3)
      by now apply setupEventHandlers_bystanders.
    destruct (process_failed auditor w4 context3 c5 S4 Hb Hby)
      as (w' & c' & reactions & R & St & Sf & V & P).
    rewrite R.
    exists (set_activeActions (delete (newActionId (clock w))) w'), c'.
    exists (VIOLATION_DETECTED (actionId c5)
              (PostExecutionLayer.auditViolation
                 (clock w4) (params c5 !! "invalidResult"%string))
            :: reactions
            ++ [REMEDIATION_TRIGGERED context3; REMEDIATION_COMPLETED context3;
                AUDIT_COMPLETED context3]).
    split; [reflexivity |]. cbn [store activeActions published set_activeActions].
    split; [exact St |].
    split; [intros _; split; [exact Sf |]; eexists; split; [exact V |]; now split |].
    split; [tauto |].
    split; [rewrite P; cbn; rewrite <- app_assoc; reflexivity |].
    split; [| apply lookup_delete_eq].
    assert (E : reactions
                ++ [REMEDIATION_TRIGGERED context3; REMEDIATION_COMPLETED context3;
                    AUDIT_COMPLETED context3]
                = (reactions
                   ++ [REMEDIATION_TRIGGERED context3; REMEDIATION_COMPLETED context3])
                  ++ [AUDIT_COMPLETED context3]) by now rewrite <- app_assoc.
    rewrite E, app_comm_cons. apply last_snoc.
  - assert (D : ~ disqualified).
    { apply orb_false_iff in Hb. destruct Hb as [Hc Ht].
      intros [Hv | Hv]; [| cbn in Ht; congruence].
      apply hasCriticalViolation_true in Hv. cbn in Hc. congruence. }
    destruct (process_passed auditor w4 context3 c5 S4 Hb) as (w' & R & St & _ & _ & P).
    rewrite R. eexists _, _, _. split; [reflexivity |]. cbn.
    split; [rewrite St; apply lookup_insert_eq |].
    split; [tauto |].
    split; [intros _; now repeat split |].
    split; [rewrite P; cbn; rewrite <- app_assoc; reflexivity |].
    split; [reflexivity | apply lookup_delete_eq].
Qed.

End Outcomes.

(** * The further properties at the sample inputs *)

Section EngineInstances.
Import Js AnomalyDetectionEngine.
Local Open Scope Q_scope.

Lemma default_thresholds_ascend : Spec.ascending (thresholds (create None None)).
Proof. repeat split; discriminate. Qed.

Lemma resolveAction_monotone_witness :
  (Spec.severityRank (resolveAction (create None None) (3 # 10)).1
   <= Spec.severityRank (resolveAction (create None None) (7 # 10)).1)%nat.
Proof.
  apply (resolveAction_monotone (create None None) (3 # 10) (7 # 10)).
  discriminate.
Defined.

Lemma resolveAction_intervals_witness :
  (resolveAction (create None None) (7 # 10)).1 = REQUIRE_APPROVAL.
Proof.
  destruct (resolveAction_intervals (create None None) (7 # 10)
              default_thresholds_ascend) as (_ & [_ H] & _).
  apply H. split; [discriminate | reflexivity].
Defined.

Lemma scopeDriftRisk_share_witness :
  scopeDriftRisk (deriveLiveBehaviorVector "delete stale sessions"
                    Sample.busyStep Sample.policy) == 1 # 2.
Proof.
  destruct (scopeDriftRisk_share "delete stale sessions" Sample.busyStep Sample.policy
              ["reports:read"; "admin:write"]%string eq_refl)
    as (H & _ & _); [discriminate |].
  rewrite H. reflexivity.
Defined.

Lemma apiNoveltyRisk_share_witness :
  apiNoveltyRisk (deriveLiveBehaviorVector "delete stale sessions"
                    Sample.busyStep Sample.policy) == 2 # 3.
Proof.
  destruct (apiNoveltyRisk_share "delete stale sessions" Sample.busyStep Sample.policy
              ["reports.list"; "users.delete"; "users.delete"]%string eq_refl)
    as (H & _ & _); [discriminate |].
  rewrite H. reflexivity.
Defined.

Lemma dataVolumeRisk_saturates_witness :
  dataVolumeRisk (deriveLiveBehaviorVector "delete stale sessions"
                    Sample.busyStep Sample.policy) == 2 # 5.
Proof.
  destruct (dataVolumeRisk_saturates "delete stale sessions" Sample.busyStep Sample.policy)
    as (_ & H & _).
  rewrite H; [reflexivity | discriminate | discriminate].
Defined.

Lemma live_risks_in_unit_interval_witness :
  Spec.inUnit (cooperativeInstabilityRisk
                 (deriveLiveBehaviorVector "generate report" Sample.routineStep
                    Sample.policy)).
Proof.
  apply (live_risks_in_unit_interval "generate report" Sample.routineStep Sample.policy).
Defined.

Lemma sensitiveDataExposureRisk_zero_witness :
  sensitiveDataExposureRisk (deriveLiveBehaviorVector "generate report"
                               Sample.routineStep Sample.policy) == 0.
Proof.
  apply (sensitiveDataExposureRisk_zero "generate report" Sample.routineStep
           Sample.policy).
  - repeat constructor; discriminate.
  - repeat constructor; intros [H | H]; discriminate H.
Defined.

Lemma cooperativeInstabilityRisk_zero_witness :
  cooperativeInstabilityRisk (deriveLiveBehaviorVector "delete stale sessions"
                                Sample.busyStep Sample.policy) == 0.
Proof.
  apply (cooperativeInstabilityRisk_zero Sample.policy "delete stale sessions"
           Sample.busyStep _ eq_refl).
  constructor; [split; [discriminate | intros c [= <-]; right; discriminate] |].
  constructor; [split; [discriminate | intros c [=]] | constructor].
Defined.

Lemma computeDeviationScore_symmetric_witness :
  computeDeviationScore Sample.noveltyOnly Sample.noveltyOnly == 0.
Proof.
  apply (computeDeviationScore_symmetric Sample.noveltyOnly Sample.noveltyOnly).
  repeat split; reflexivity.
Defined.

Lemma computeDeviationScore_differing_dimensions_witness :
  computeDeviationScore defaultPredictedVector Sample.noveltyOnly <= 1 # 6
  /\ resolveAction (create None None)
       (computeDeviationScore defaultPredictedVector Sample.noveltyOnly)
     = (NONE, None).
Proof.
  assert (Hp : Spec.valid defaultPredictedVector)
    by (vm_compute; intuition discriminate).
  assert (Hl : Spec.valid Sample.noveltyOnly)
    by (vm_compute; intuition discriminate).
  destruct (computeDeviationScore_differing_dimensions _ _ Hp Hl) as [_ H].
  apply H. vm_compute. lia.
Defined.

Lemma evaluate_decision_witness :
  let d := evaluate (create None None) None "generate report"
             Sample.destructiveStep Sample.policy in
  threshold d = Some (1 # 4) /\ 1 # 4 <= deviationScore d.
Proof.
  intros d.
  destruct (evaluate_decision (create None None) None "generate report"
              Sample.destructiveStep Sample.policy) as (_ & _ & _ & _ & H).
  assert (T : threshold d = Some (1 # 4)) by reflexivity.
  split; [exact T | apply (H (1 # 4) T)].
Defined.

End EngineInstances.

Section IntentInstances.
Import Js AnomalyDetectionEngine.
Local Open Scope Q_scope.

Lemma elem_of_tokenSet (text token : string) :
  token ∈ Spec.tokenSet text <-> token ∈ tokenArray text.
Proof. now rewrite <- tokenArray_tokenSet, elem_of_list_to_set. Qed.

Lemma tokenSet_nonempty (text : string) :
  (setSize (tokenArray text) =? 0)%nat = false -> Spec.tokenSet text <> ∅.
Proof. intros H E. apply tokenArray_empty in E. congruence. Qed.

Lemma stale_sessions_tokens :
  Spec.tokenSet "delete stale sessions" <> ∅
  /\ Spec.tokenSet "delete stale sessions" ⊆ Spec.tokenSet "delete stale sessions now".
Proof.
  split; [now apply tokenSet_nonempty |].
  intros token. rewrite !elem_of_tokenSet.
  change (tokenArray "delete stale sessions")
    with ["delete"; "stale"; "sessions"]%string.
  change (tokenArray "delete stale sessions now")
    with ["delete"; "stale"; "sessions"]%string.
  tauto.
Qed.

Lemma intentSimilarity_bounds_witness :
  intentSimilarity "delete stale sessions now" "delete stale sessions" == 1.
Proof.
  destruct (intentSimilarity_bounds "delete stale sessions now" "delete stale sessions")
    as (_ & H & _).
  destruct stale_sessions_tokens as [N S]. now apply H.
Defined.

Lemma matching_intent_is_no_deviation_witness :
  intentDeviationRisk
    (deriveLiveBehaviorVector "Delete stale sessions" Sample.busyStep Sample.policy)
  == 0.
Proof.
  destruct stale_sessions_tokens as [N S].
  now apply (matching_intent_is_no_deviation "Delete stale sessions"
               Sample.busyStep Sample.policy).
Defined.

Lemma intents_without_long_words_deviate_witness :
  intentDeviationRisk
    (deriveLiveBehaviorVector "generate report" Sample.terseStep Sample.policy)
  == 65 # 100.
Proof.
  destruct (intents_without_long_words_deviate "generate report" Sample.terseStep
              Sample.policy) as [_ H].
  - discriminate.
  - left. now apply tokenArray_empty.
  - apply H. intros V. apply highImpact_substring in V. discriminate V.
Defined.

Lemma intentDeviationRisk_ignores_case_witness :
  intentDeviationRisk
    (deriveLiveBehaviorVector "Generate REPORT" Sample.relatedStep Sample.policy)
  = intentDeviationRisk
      (deriveLiveBehaviorVector "generate report" Sample.relatedStep Sample.policy).
Proof.
  apply (intentDeviationRisk_ignores_case "Generate REPORT" "generate report"
           Sample.relatedStep Sample.relatedStep Sample.policy Sample.policy);
    reflexivity.
Defined.

End IntentInstances.

Section StateInstances.
Import GuardrailOrchestrator.

(** The audit of the clean context passes and touches nothing but the
    status, although the orchestrator's intervention layer would suspend
    the action. *)
Lemma passing_audit_changes_status_only_witness :
  exists w' : World,
    PostExecutionLayer.process Sample.interveningAuditor 1%positive Sample.atCleanAudit
    = (w', Returned 1%positive)
    /\ store w' !! 1%positive = Some (set_status AUDIT_PASSED Sample.clean)
    /\ published w'
       = [ACTION_PROPOSED 1; ACTION_COMPLETED 1; AUDIT_STARTED 1; AUDIT_COMPLETED 1].
Proof.
  destruct (passing_audit_changes_status_only Sample.interveningAuditor
              Sample.atCleanAudit 1%positive Sample.clean)
    as (w' & R & S & _ & _ & P).
  - reflexivity.
  - intros v Hv. now apply elem_of_nil in Hv.
  - reflexivity.
  - exists w'. split; [exact R |]. split; [| exact P].
    rewrite S. apply lookup_insert_eq.
Defined.

Lemma auditor_bystanders :
  Spec.bystanders (PostExecutionLayer.eventBus Sample.auditor) 1%positive.
Proof. apply setupEventHandlers_bystanders, permissive_keepsAudit. Qed.

(** The flagged context fails its audit, and fails it again afterwards. *)
Lemma failed_audit_is_final_witness :
  exists (w3 : World) (c3 : ActionContext),
    PostExecutionLayer.process Sample.auditor 1%positive Sample.auditedOnce
    = (w3, Returned 1%positive)
    /\ store w3 !! 1%positive = Some c3
    /\ status c3 = AUDIT_FAILED.
Proof.
  destruct (store Sample.auditedOnce !! 1%positive) as [c1 |] eqn:S1;
    [| vm_compute in S1; discriminate S1].
  apply (failed_audit_is_final Sample.auditor Sample.atAudit 1%positive Sample.flagged
           Sample.auditedOnce c1 Sample.auditedOnce c1).
  - exact auditor_bystanders.
  - reflexivity.
  - reflexivity.
  - exact S1.
  - vm_compute in S1. inversion S1. reflexivity.
  - exact S1.
  - tauto.
Defined.

(** Audited twice at the same clock reading, the flagged context holds
    three violations, two of them under one identifier. *)
Lemma repeated_audit_repeats_identifier_witness :
  exists c2 : ActionContext,
    store Sample.auditedTwice !! 1%positive = Some c2
    /\ length (violations c2) = 3%nat
    /\ ~ NoDup (id <$> violations c2).
Proof.
  destruct (store Sample.auditedOnce !! 1%positive) as [c1 |] eqn:S1;
    [| vm_compute in S1; discriminate S1].
  destruct (store Sample.auditedTwice !! 1%positive) as [c2 |] eqn:S2;
    [| vm_compute in S2; discriminate S2].
  destruct (repeated_audit_repeats_identifier Sample.auditor Sample.atAudit 1%positive
              Sample.flagged Sample.auditedOnce c1 Sample.auditedTwice c2)
    as (v & v' & Hv & _ & D).
  - exact auditor_bystanders.
  - reflexivity.
  - reflexivity.
  - exact S1.
  - vm_compute in S1. inversion S1. reflexivity.
  - reflexivity.
  - reflexivity.
  - exact S2.
  - exists c2. split; [reflexivity |]. split; [now rewrite Hv | exact D].
Defined.

(** With an orchestrator whose intervention layer suspends the action, the
    flagged context leaves its audit SUSPENDED: the layer ran after the
    audit had marked the context AUDIT_FAILED.  The context holds the
    violation of the audit once. *)
Lemma audit_violation_is_delivered_inside_witness :
  exists (w' : World) (c' : ActionContext),
    PostExecutionLayer.process Sample.interveningAuditor 1%positive Sample.atAudit
    = (w', Returned 1%positive)
    /\ store w' !! 1%positive = Some c'
    /\ status c' = SUSPENDED
    /\ violations c'
       = [Sample.breach; PostExecutionLayer.auditViolation 1700000000600 None].
Proof.
  pose proof (audit_violation_is_delivered_inside
                (create (Sample.permissive "PreExecution") (Sample.permissive "InProcess")
                        Sample.intervening Sample.engine)
                Sample.engine Sample.atAudit 1%positive Sample.flagged
                eq_refl eq_refl) as E.
  cbv zeta in E.
  assert (D : (exists v : Violation,
                  v ∈ violations Sample.flagged /\ severity v = CRITICAL)
              \/ Js.truthy (params Sample.flagged !! "invalidResult"%string) = true).
  { left. exists Sample.breach. split; [| reflexivity].
    apply list_elem_of_In. now left. }
  specialize (E D).
  eexists _, _. split.
  - etransitivity; [exact E |]. vm_compute. reflexivity.
  - split; [vm_compute; reflexivity |]. split; reflexivity.
Defined.

(** A second delivery of the novel violation changes nothing. *)
Lemma second_delivery_records_nothing_witness :
  let w2 := (onViolationDetected Sample.permissiveOrchestrator "act-1700000000000"
               Sample.novel Sample.atAudit).1 in
  (violations <$> store w2 !! 1%positive) = Some [Sample.breach; Sample.novel]
  /\ onViolationDetected Sample.permissiveOrchestrator "act-1700000000000"
       Sample.novel w2
     = (w2, Returned tt).
Proof.
  intros w2. split; [reflexivity |].
  rewrite (second_delivery_records_nothing Sample.permissiveOrchestrator
             "act-1700000000000" Sample.novel Sample.novel Sample.atAudit 1%positive
             Sample.flagged w2 (Returned tt)).
  - reflexivity.
  - intros w1 w' c1 r A S R. cbn in R. inversion R; subst.
    split; [exact A |]. exists c1. split; [exact S | tauto].
  - reflexivity.
  - reflexivity.
  - reflexivity.
  - reflexivity.
Defined.

(** An in-process layer that throws: the error reaches the caller and the
    entry is gone. *)
Lemma thrown_errors_pass_through_witness :
  exists w' : World,
    coordinate (fun w => w)
      (create (Sample.permissive "PreExecution") Sample.throwing
              (Sample.permissive "Intervention") Sample.engine)
      "agent-a" "export report" ∅ Sample.idle
    = (w', Thrown (Js.VStr "monitor unavailable"))
    /\ activeActions w' !! "act-1700000000000"%string = None
    /\ published w' = [ACTION_PROPOSED 1].
Proof.
  destruct (thrown_errors_pass_through (fun w => w) (Sample.permissive "PreExecution")
              Sample.throwing (Sample.permissive "Intervention") Sample.engine
              "agent-a" "export report" ∅ Sample.idle
              (Js.VStr "monitor unavailable")) as [_ H].
  pose (w1 := (propose "agent-a" "export report" ∅ Sample.idle).1).
  eexists. split.
  - apply (H w1 w1 1%positive (newContext "agent-a" "export report" ∅ 1700000000000));
      [reflexivity | reflexivity | discriminate | reflexivity].
  - split; reflexivity.
Defined.

(** An in-process layer that suspends: the context comes back SUSPENDED
    with an end time, and only the proposal was published. *)
Lemma suspension_ends_the_coordination_witness :
  exists w' : World,
    coordinate (fun w => w)
      (create (Sample.permissive "PreExecution") Sample.suspending
              (Sample.permissive "Intervention") Sample.engine)
      "agent-a" "export report" ∅ Sample.idle
    = (w', Returned 1%positive)
    /\ (status <$> store w' !! 1%positive) = Some SUSPENDED
    /\ (endTime <$> store w' !! 1%positive) = Some (Some 1700000000000%N)
    /\ published w' = [ACTION_PROPOSED 1].
Proof.
  pose (w1 := (propose "agent-a" "export report" ∅ Sample.idle).1).
  pose (c1 := newContext "agent-a" "export report" ∅ 1700000000000).
  destruct (suspension_ends_the_coordination (fun w => w)
              (Sample.permissive "PreExecution") Sample.suspending
              (Sample.permissive "Intervention") Sample.engine
              "agent-a" "export report" ∅ Sample.idle
              w1 1%positive c1
              (set_store <[1%positive := set_status SUSPENDED c1]> w1) 1%positive
              (set_status SUSPENDED c1))
    as (w' & R & S & P & _ & _ & St & _);
    [reflexivity | reflexivity | discriminate | reflexivity | reflexivity
    | reflexivity |].
  exists w'. split; [exact R |]. split; [exact St |].
  split; [rewrite S; reflexivity | rewrite P; reflexivity].
Defined.

(** Layers that let the action through, and params that carry
    [invalidResult: true]: the context comes back AUDIT_FAILED with the
    violation of the audit, "action completed" precedes the audit, and the
    entry is removed. *)
Lemma completion_runs_the_audit_witness :
  exists (w' : World) (c' : ActionContext),
    coordinate (fun w => w) Sample.permissiveOrchestrator
      "agent-a" "export report" {[ "invalidResult"%string := Js.VBool true ]} Sample.idle
    = (w', Returned 1%positive)
    /\ store w' !! 1%positive = Some c'
    /\ status c' = AUDIT_FAILED
    /\ length (violations c') = 1%nat
    /\ take 3 (published w')
       = [ACTION_PROPOSED 1; ACTION_COMPLETED 1; AUDIT_STARTED 1]
    /\ activeActions w' !! "act-1700000000000"%string = None.
Proof.
  pose (payload := ({[ "invalidResult"%string := Js.VBool true ]} : gmap string Js.value)).
  pose (w1 := (propose "agent-a" "export report" payload Sample.idle).1).
  pose (c1 := newContext "agent-a" "export report" payload 1700000000000).
  destruct (completion_runs_the_audit (fun w => w)
              (Sample.permissive "PreExecution") (Sample.permissive "InProcess")
              (Sample.permissive "Intervention") Sample.engine
              "agent-a" "export report" payload Sample.idle
              w1 1%positive c1 w1 1%positive c1 c1)
    as (w' & c' & audit & R & S & Hfail & _ & P & _ & A);
    [reflexivity | reflexivity | discriminate | reflexivity | reflexivity
    | discriminate | reflexivity | apply permissive_keepsAudit |].
  assert (D : (exists v : Violation, v ∈ violations c1 /\ severity v = CRITICAL)
              \/ Js.truthy (params c1 !! "invalidResult"%string) = true).
  { right. reflexivity. }
  destruct (Hfail D) as (St & v & Hv & _).
  exists w', c'. split; [exact R |]. split; [exact S |]. split; [exact St |].
  split; [now rewrite Hv |]. split; [| exact A].
  rewrite P. reflexivity.
Defined.

End StateInstances.
